(** * IceBase: a shallow embedding of the query dispatcher, the per-table
    log and the filesystem storage backend.

    The Go sources embedded here are [icebase.go] (ExecuteQuery, DataDB,
    logByName, SplitNonEmptyQueries, handleQuery, PostEndpoint,
    RequestHandler), [log.go] (getDB, createTable, RecreateSchema, Insert,
    RecreateAsView) and the storage part of [main.go] (the methods Read,
    Write, CreateDir, Stat and Delete of FSStorage, and bytesToETag).

    Conventions.
    - A Go [string] is a Rocq [string] (a sequence of bytes); a [[]byte] is a
      [list byte].
    - A Go call that returns [(v, error)] returns an [outcome]: [Ok v],
      [Err e], or [Panic msg] for a run-time panic.
    - The operating system, the log database files and the analytical engine
      are explicit state ([World]); what the engine answers is given by an
      [Engine] record the theorems quantify over. *)

From Stdlib Require Import ZArith List String Ascii Lia Bool Strings.Byte.
From stdpp Require Import gmap strings list sorting pretty.

Local Open Scope string_scope.
Local Open Scope Z_scope.
Set Warnings "-register-all".

#[global] Instance byte_eq_decision : EqDecision byte := Byte.byte_eq_dec.

(* ===================================================================== *)
(** ** Go's [strings] package, on bytes *)
(* ===================================================================== *)

Module GoStrings.

(** [strings.HasPrefix]. *)
Fixpoint HasPrefix (s p : string) : bool :=
  match p, s with
  | EmptyString, _ => true
  | String _ _, EmptyString => false
  | String b p', String a s' => if Ascii.eqb a b then HasPrefix s' p' else false
  end.

(** [strings.Split(s, sep)] for a one-byte separator: the pieces between
    the separators, [n+1] pieces for [n] separators. *)
Fixpoint Split (s : string) (sep : ascii) : list string :=
  match s with
  | EmptyString => [EmptyString]
  | String a s' =>
      if Ascii.eqb a sep then EmptyString :: Split s' sep
      else match Split s' sep with
           | h :: t => String a h :: t
           | [] => [String a EmptyString]
           end
  end.

(** [strings.SplitN(s, sep, 2)] for a one-byte separator: [parts[0]] and,
    when the separator occurs, [parts[1]]. *)
Fixpoint SplitN2 (s : string) (sep : ascii) : string * option string :=
  match s with
  | EmptyString => (EmptyString, None)
  | String a s' =>
      if Ascii.eqb a sep then (EmptyString, Some s')
      else let '(h, t) := SplitN2 s' sep in (String a h, t)
  end.

(** [strings.Join]. *)
Fixpoint Join (elems : list string) (sep : string) : string :=
  match elems with
  | [] => EmptyString
  | [e] => e
  | e :: rest => e +:+ sep +:+ Join rest sep
  end.

(** The UTF-8 encodings of the runes for which [unicode.IsSpace] holds:
    the six ASCII ones, U+0085, U+00A0, U+1680, U+2000..U+200A, U+2028,
    U+2029, U+202F, U+205F and U+3000. *)
Definition space_encodings : list (list N) :=
  ([[9]; [10]; [11]; [12]; [13]; [32];
    [194; 133]; [194; 160];
    [225; 154; 128];
    [226; 128; 128]; [226; 128; 129]; [226; 128; 130]; [226; 128; 131];
    [226; 128; 132]; [226; 128; 133]; [226; 128; 134]; [226; 128; 135];
    [226; 128; 136]; [226; 128; 137]; [226; 128; 138];
    [226; 128; 168]; [226; 128; 169]; [226; 128; 175];
    [226; 129; 159];
    [227; 128; 128]])%N.

Fixpoint strip_codes (codes : list N) (l : list ascii) : option (list ascii) :=
  match codes, l with
  | [], _ => Some l
  | _ :: _, [] => None
  | c :: codes', a :: l' =>
      if N.eqb (N_of_ascii a) c then strip_codes codes' l' else None
  end.

(** The rest of [l] after one leading white-space rune, if it has one;
    [encs] are the encodings to try. *)
Fixpoint strip_space (encs : list (list N)) (l : list ascii) : option (list ascii) :=
  match encs with
  | [] => None
  | e :: encs' =>
      match strip_codes e l with
      | Some r => Some r
      | None => strip_space encs' l
      end
  end.

Fixpoint trim_front (fuel : nat) (encs : list (list N)) (l : list ascii) : list ascii :=
  match fuel with
  | O => l
  | S n => match strip_space encs l with
           | Some r => trim_front n encs r
           | None => l
           end
  end.

Definition TrimLeftSpace (l : list ascii) : list ascii :=
  trim_front (length l) space_encodings l.

(** Trailing white space is found by decoding the last rune; on the
    reversed bytes that is a leading reversed encoding. *)
Definition TrimRightSpace (l : list ascii) : list ascii :=
  rev (trim_front (length l) (map (@rev N) space_encodings) (rev l)).

(** [strings.TrimSpace]. *)
Definition TrimSpace (s : string) : string :=
  string_of_list_ascii (TrimRightSpace (TrimLeftSpace (list_ascii_of_string s))).

End GoStrings.

(* ===================================================================== *)
(** ** Go's [path/filepath] package (Unix) *)
(* ===================================================================== *)

Module Filepath.

Definition slash : ascii := "/"%char.

Definition rooted (path : string) : bool :=
  match path with
  | String a _ => Ascii.eqb a slash
  | EmptyString => false
  end.

(** One step of [Clean] on the stack of components kept so far (last
    component first). *)
Definition clean_step (is_rooted : bool) (stack : list string) (c : string)
  : list string :=
  if String.eqb c "" then stack
  else if String.eqb c "." then stack
  else if String.eqb c ".." then
    match stack with
    | top :: rest => if String.eqb top ".." then c :: stack else rest
    | [] => if is_rooted then [] else [c]
    end
  else c :: stack.

(** The components [Clean] keeps, in order. *)
Definition components (path : string) : list string :=
  rev (fold_left (clean_step (rooted path)) (GoStrings.Split path slash) []).

Definition of_components (is_rooted : bool) (cs : list string) : string :=
  if is_rooted then "/" +:+ GoStrings.Join cs "/"
  else match cs with
       | [] => "."
       | _ => GoStrings.Join cs "/"
       end.

(** [filepath.Clean]. *)
Definition Clean (path : string) : string :=
  of_components (rooted path) (components path).

Fixpoint drop_empty (elems : list string) : list string :=
  match elems with
  | [] => []
  | e :: rest => if String.eqb e "" then drop_empty rest else elems
  end.

(** [filepath.Join]: the elements from the first non-empty one on, joined
    by slashes and cleaned; the empty string when all are empty. *)
Definition Join (elems : list string) : string :=
  match drop_empty elems with
  | [] => ""
  | es => Clean (GoStrings.Join es "/")
  end.

(** The part of [path] up to and including its last slash. *)
Fixpoint upto_last_slash (path : string) : string :=
  match path with
  | EmptyString => EmptyString
  | String a s' =>
      let r := upto_last_slash s' in
      if Ascii.eqb a slash then String a r
      else match r with
           | EmptyString => EmptyString
           | _ => String a r
           end
  end.

(** [filepath.Dir]. *)
Definition Dir (path : string) : string := Clean (upto_last_slash path).

(** The proper and improper ancestors of a cleaned path that are named by
    at least one of its components, outermost first: for [a/b/c] they are
    [a], [a/b] and [a/b/c]. *)
Definition ancestors (path : string) : list string :=
  let cs := components path in
  map (fun n => of_components (rooted path) (take n cs)) (seq 1 (length cs)).




End Filepath.

(* ===================================================================== *)
(** ** Errors, outcomes and state passing *)
(* ===================================================================== *)

Inductive Errno := ENOENT | ENOTDIR | EISDIR.

(** A Go [error] value. [PathError] is [*fs.PathError]; [ErrorNew] is an
    error that carries only a text ([errors.New], [fmt.Errorf] without
    [%w], an error of the database driver); [ErrorWrap prefix e] is
    [fmt.Errorf(prefix + "%w", e)]. *)
Inductive error :=
| PathError (op path : string) (errno : Errno)
| ErrorNew (msg : string)
| ErrorWrap (prefix : string) (e : error).

Definition errno_text (n : Errno) : string :=
  match n with
  | ENOENT => "no such file or directory"
  | ENOTDIR => "not a directory"
  | EISDIR => "is a directory"
  end.

(** [err.Error()]. *)
Fixpoint Error (e : error) : string :=
  match e with
  | PathError op path n => op +:+ " " +:+ path +:+ ": " +:+ errno_text n
  | ErrorNew msg => msg
  | ErrorWrap prefix e' => prefix +:+ Error e'
  end.

(** [os.IsNotExist]: it looks at the error itself and does not unwrap
    [fmt.Errorf] wrappers. *)
Definition IsNotExist (e : error) : bool :=
  match e with
  | PathError _ _ ENOENT => true
  | _ => false
  end.

Inductive outcome (A : Type) :=
| Ok (a : A)
| Err (e : error)
| Panic (msg : string).
Arguments Ok {A} a.
Arguments Err {A} e.
Arguments Panic {A} msg.

Definition is_Ok {A} (o : outcome A) : bool :=
  match o with Ok _ => true | _ => false end.

(** Computations that read and change a state [S] and may fail. *)
Definition M (S A : Type) : Type := S -> outcome A * S.

Definition ret {S A} (a : A) : M S A := fun s => (Ok a, s).
Definition fail {S A} (e : error) : M S A := fun s => (Err e, s).
Definition bind {S A B} (m : M S A) (k : A -> M S B) : M S B :=
  fun s =>
    match m s with
    | (Ok a, s') => k a s'
    | (Err e, s') => (Err e, s')
    | (Panic msg, s') => (Panic msg, s')
    end.
(** [if err != nil { return wrap(err) }]. *)
Definition wrap {S A} (prefix : string) (m : M S A) : M S A :=
  fun s =>
    match m s with
    | (Err e, s') => (Err (ErrorWrap prefix e), s')
    | r => r
    end.
Definition lift {S A} (o : outcome A) : M S A := fun s => (o, s).
Definition get {S} : M S S := fun s => (Ok s, s).
Definition put {S} (s : S) : M S unit := fun _ => (Ok tt, s).

Declare Scope go_scope.
Delimit Scope go_scope with go.
Notation "'let!' x ':=' m 'in' k" := (bind m (fun x => k))
  (at level 10, x pattern, m at level 100, k at level 200) : go_scope.
Notation "'do!' m 'in' k" := (bind m (fun _ => k))
  (at level 10, m at level 100, k at level 200) : go_scope.

(* ===================================================================== *)
(** ** [crypto/md5] and [encoding/hex] *)
(* ===================================================================== *)

Module MD5.

Definition mask32 : Z := Z.ones 32.
Definition add32 (a b : Z) : Z := Z.land (a + b) mask32.
Definition not32 (a : Z) : Z := Z.lxor a mask32.
Definition rotl32 (x n : Z) : Z :=
  Z.land (Z.lor (Z.shiftl x n) (Z.shiftr x (32 - n))) mask32.

Definition K : list Z :=
  [3614090360; 3905402710; 606105819; 3250441966;
   4118548399; 1200080426; 2821735955; 4249261313;
   1770035416; 2336552879; 4294925233; 2304563134;
   1804603682; 4254626195; 2792965006; 1236535329;
   4129170786; 3225465664; 643717713; 3921069994;
   3593408605; 38016083; 3634488961; 3889429448;
   568446438; 3275163606; 4107603335; 1163531501;
   2850285829; 4243563512; 1735328473; 2368359562;
   4294588738; 2272392833; 1839030562; 4259657740;
   2763975236; 1272893353; 4139469664; 3200236656;
   681279174; 3936430074; 3572445317; 76029189;
   3654602809; 3873151461; 530742520; 3299628645;
   4096336452; 1126891415; 2878612391; 4237533241;
   1700485571; 2399980690; 4293915773; 2240044497;
   1873313359; 4264355552; 2734768916; 1309151649;
   4149444226; 3174756917; 718787259; 3951481745].

Definition shifts : list Z :=
  [7; 12; 17; 22; 7; 12; 17; 22; 7; 12; 17; 22; 7; 12; 17; 22;
   5; 9; 14; 20; 5; 9; 14; 20; 5; 9; 14; 20; 5; 9; 14; 20;
   4; 11; 16; 23; 4; 11; 16; 23; 4; 11; 16; 23; 4; 11; 16; 23;
   6; 10; 15; 21; 6; 10; 15; 21; 6; 10; 15; 21; 6; 10; 15; 21].

(** Little-endian value of a byte sequence, and back. *)
Definition of_le (bs : list Z) : Z := fold_right (fun b acc => b + 256 * acc) 0 bs.
Fixpoint to_le (n : nat) (x : Z) : list Z :=
  match n with
  | O => []
  | S n' => Z.land x 255 :: to_le n' (Z.shiftr x 8)
  end.

Fixpoint chunks (n k : nat) (l : list Z) : list (list Z) :=
  match n with
  | O => []
  | S n' => take k l :: chunks n' k (drop k l)
  end.

(** The message followed by 0x80, zero bytes up to 56 modulo 64, and the
    bit length on 8 bytes. *)
Definition pad (msg : list Z) : list Z :=
  let len := Z.of_nat (length msg) in
  msg ++ [128] ++ repeat 0 (Z.to_nat ((55 - len) mod 64))
      ++ to_le 8 (Z.land (8 * len) (Z.ones 64)).

Record digest := { dA : Z; dB : Z; dC : Z; dD : Z }.

Definition init : digest :=
  {| dA := 0x67452301; dB := 0xefcdab89; dC := 0x98badcfe; dD := 0x10325476 |}.

Definition step (Mw : list Z) (d : digest) (i : nat) : digest :=
  let '(f, g) :=
    if (i <? 16)%nat then
      (Z.lor (Z.land (dB d) (dC d)) (Z.land (not32 (dB d)) (dD d)), i)
    else if (i <? 32)%nat then
      (Z.lor (Z.land (dD d) (dB d)) (Z.land (not32 (dD d)) (dC d)),
       ((5 * i + 1) mod 16)%nat)
    else if (i <? 48)%nat then
      (Z.lxor (dB d) (Z.lxor (dC d) (dD d)), ((3 * i + 5) mod 16)%nat)
    else
      (Z.lxor (dC d) (Z.lor (dB d) (not32 (dD d))), ((7 * i) mod 16)%nat) in
  let f' := add32 (add32 (add32 f (dA d)) (nth i K 0)) (nth g Mw 0) in
  {| dA := dD d; dD := dC d; dC := dB d;
     dB := add32 (dB d) (rotl32 f' (nth i shifts 0)) |}.

Definition block (d : digest) (bytes : list Z) : digest :=
  let Mw := map of_le (chunks 16 4 bytes) in
  let d' := fold_left (step Mw) (seq 0 64) d in
  {| dA := add32 (dA d) (dA d'); dB := add32 (dB d) (dB d');
     dC := add32 (dC d) (dC d'); dD := add32 (dD d) (dD d') |}.

Definition byte_of_Z (z : Z) : byte :=
  match Byte.of_N (Z.to_N z) with Some b => b | None => x00 end.

(** [md5.Sum]. *)
Definition Sum (data : list byte) : list byte :=
  let padded := pad (map (fun b => Z.of_N (Byte.to_N b)) data) in
  let d := fold_left block (chunks (length padded / 64) 64 padded) init in
  map byte_of_Z (to_le 4 (dA d) ++ to_le 4 (dB d) ++ to_le 4 (dC d) ++ to_le 4 (dD d)).

End MD5.

Module Hex.

Definition digit (n : N) : ascii :=
  ascii_of_N (if (n <? 10)%N then 48 + n else 87 + n)%N.

(** [hex.EncodeToString]: two lower-case digits per byte. *)
Fixpoint EncodeToString (bs : list byte) : string :=
  match bs with
  | [] => EmptyString
  | b :: rest =>
      let n := Byte.to_N b in
      String (digit (n / 16)) (String (digit (n mod 16)) (EncodeToString rest))
  end.

End Hex.

(** [bytesToETag] generates an MD5-based ETag from byte data. *)
Definition bytesToETag (data : list byte) : string :=
  Hex.EncodeToString (MD5.Sum data).

(* ===================================================================== *)
(** ** The operating system's files *)
(* ===================================================================== *)

Module OS.

(** What a path names. Permissions, times, links, and failures of the
    device are not modelled. *)
Inductive node :=
| File (content : list byte)
| Dir.

(** The files and directories, by cleaned path. *)
Abbreviation FS := (gmap string node).

(** [os.FileInfo], without the modification time. The size of a directory
    depends on the file system; it reads 0 here. *)
Record FileInfo := { Name : string; Size : Z; IsDir : bool }.

(** The working directory, the root, and the ancestors of the working
    directory always exist. *)
Definition implicit_dir (p : string) : bool :=
  String.eqb p "/" || forallb (String.eqb "..") (Filepath.components p).

Definition Base (p : string) : string :=
  match rev (Filepath.components p) with
  | c :: _ => c
  | [] => p
  end.

(** Path resolution through the directories [ps], outermost first. *)
Fixpoint walk (fs : FS) (op path : string) (ps : list string) : option error :=
  match ps with
  | [] => None
  | p :: rest =>
      if implicit_dir p then walk fs op path rest
      else match fs !! p with
           | Some Dir => walk fs op path rest
           | Some (File _) => Some (PathError op path ENOTDIR)
           | None => Some (PathError op path ENOENT)
           end
  end.

Definition resolve (fs : FS) (op p : string) : option error :=
  walk fs op p (Filepath.ancestors (Filepath.Dir p)).

(** [os.Stat]. *)
Definition Stat (name : string) : M FS FileInfo := fun fs =>
  let p := Filepath.Clean name in
  if implicit_dir p then (Ok {| Name := Base p; Size := 0; IsDir := true |}, fs)
  else match resolve fs "stat" p with
       | Some e => (Err e, fs)
       | None =>
           match fs !! p with
           | Some (File c) =>
               (Ok {| Name := Base p; Size := Z.of_nat (length c); IsDir := false |}, fs)
           | Some Dir => (Ok {| Name := Base p; Size := 0; IsDir := true |}, fs)
           | None => (Err (PathError "stat" p ENOENT), fs)
           end
       end.

(** [os.ReadFile]. *)
Definition ReadFile (name : string) : M FS (list byte) := fun fs =>
  let p := Filepath.Clean name in
  if implicit_dir p then (Err (PathError "read" p EISDIR), fs)
  else match resolve fs "open" p with
       | Some e => (Err e, fs)
       | None =>
           match fs !! p with
           | Some (File c) => (Ok c, fs)
           | Some Dir => (Err (PathError "read" p EISDIR), fs)
           | None => (Err (PathError "open" p ENOENT), fs)
           end
       end.

(** [os.WriteFile]: creates the file or replaces its content; the
    directory it is in must exist. *)
Definition WriteFile (name : string) (data : list byte) : M FS unit := fun fs =>
  let p := Filepath.Clean name in
  if implicit_dir p then (Err (PathError "open" p EISDIR), fs)
  else match resolve fs "open" p with
       | Some e => (Err e, fs)
       | None =>
           match fs !! p with
           | Some Dir => (Err (PathError "open" p EISDIR), fs)
           | _ => (Ok tt, <[p := File data]> fs)
           end
       end.

Fixpoint mkdirs (ps : list string) : M FS unit := fun fs =>
  match ps with
  | [] => (Ok tt, fs)
  | p :: rest =>
      if implicit_dir p then mkdirs rest fs
      else match fs !! p with
           | Some Dir => mkdirs rest fs
           | Some (File _) => (Err (PathError "mkdir" p ENOTDIR), fs)
           | None => mkdirs rest (<[p := Dir]> fs)
           end
  end.

(** [os.MkdirAll]: creates the directory and the missing ones above it;
    the ones created before a failure stay. *)
Definition MkdirAll (name : string) : M FS unit :=
  mkdirs (Filepath.ancestors (Filepath.Clean name)).

(** Whether something is stored directly under the directory [p]. *)
Definition has_children (fs : FS) (p : string) : bool :=
  existsb (fun kv => String.eqb (Filepath.Dir (fst kv)) p && negb (String.eqb (fst kv) p))
          (map_to_list fs).

(** An error of the system for which [Errno] has no name, by its text;
    [os.IsNotExist] is false of it. *)
Definition otherError (op p text : string) : error :=
  ErrorNew (op +:+ " " +:+ p +:+ ": " +:+ text).

(** [os.Remove]: removes a file or an empty directory. *)
Definition Remove (name : string) : M FS unit := fun fs =>
  let p := Filepath.Clean name in
  if implicit_dir p then
    (Err (otherError "remove" p
            (if String.eqb p "/" then "device or resource busy"
             else if String.eqb p "." then "invalid argument"
             else "directory not empty")), fs)
  else match resolve fs "remove" p with
       | Some e => (Err e, fs)
       | None =>
           match fs !! p with
           | Some (File _) => (Ok tt, delete p fs)
           | Some Dir =>
               if has_children fs p
               then (Err (otherError "remove" p "directory not empty"), fs)
               else (Ok tt, delete p fs)
           | None => (Err (PathError "remove" p ENOENT), fs)
           end
       end.

End OS.

(* ===================================================================== *)
(** ** The filesystem storage backend ([FSStorage]) *)
(* ===================================================================== *)

Module Storage.

Import OS.
Local Open Scope go_scope.

(** [WriteOption] configures write operations. *)
Record writeConfig := { etag : string }.
Definition WriteOption : Type := writeConfig -> writeConfig.

Definition WithIfMatch (e : string) : WriteOption :=
  fun _ => {| etag := e |}.

Record FSConfig := { rootDir : string }.
Record FSStorage := { config : FSConfig }.

(** [s3FileInfo], without the modification time. *)
Record s3FileInfo := {
  name : string;
  size : Z;
  ETag : string;
  isDir : bool
}.

Definition fullPath (s : FSStorage) (path : string) : string :=
  Filepath.Join [rootDir (config s); path].

(** [FSStorage.Stat]: the ETag of a file is computed from its content; a
    directory has the empty ETag. *)
Definition Stat (s : FSStorage) (path : string) : M FS s3FileInfo :=
  let full := fullPath s path in
  let! fi := OS.Stat full in
  let! etagChecksum :=
    (if IsDir fi then ret ""
     else let! data := OS.ReadFile full in ret (bytesToETag data)) in
  ret {| name := Name fi; size := Size fi; ETag := etagChecksum; isDir := IsDir fi |}.

(** The ETag check at the head of [FSStorage.Write]. *)
Definition checkIfMatch (s : FSStorage) (path : string) (cfg : writeConfig)
  : M FS unit :=
  if String.eqb (etag cfg) "" then ret tt
  else
    let! fi := wrap ("failed to check etag, " +:+ path +:+ " does not exist: ")
                    (Stat s path) in
    if negb (String.eqb (ETag fi) (etag cfg)) then
      fail (ErrorNew ("IfMatch: ETag mismatch (current: " +:+ ETag fi +:+ ")"))
    else ret tt.

(** [FSStorage.Write]. *)
Definition Write (s : FSStorage) (path : string) (data : list byte)
           (opts : list WriteOption) : M FS unit :=
  let full := fullPath s path in
  let cfg := fold_left (fun c opt => opt c) opts {| etag := "" |} in
  do! checkIfMatch s path cfg in
  fun fs =>
    match OS.WriteFile full data fs with
    | (Err e, fs1) =>
        if IsNotExist e then
          (* Only check/create directory if initial write failed *)
          let dir := Filepath.Dir full in
          (do! wrap ("failed to create directory " +:+ dir +:+ ": ") (OS.MkdirAll dir) in
           OS.WriteFile full data) fs1
        else (Err e, fs1)
    | r => r
    end.

(** [FSStorage.Read]: the content with its size and the ETag computed
    from it. [os.Open] and [io.ReadAll] are [OS.ReadFile]; [file.Stat] is
    [OS.Stat] of the same path. *)
Definition Read (s : FSStorage) (path : string) : M FS (list byte * s3FileInfo) :=
  let full := fullPath s path in
  let! data := OS.ReadFile full in
  let! fi := OS.Stat full in
  let etagChecksum := bytesToETag data in
  ret (data, {| name := Name fi; size := Size fi; ETag := etagChecksum;
                isDir := IsDir fi |}).

(** [FSStorage.CreateDir]. *)
Definition CreateDir (s : FSStorage) (path : string) : M FS unit :=
  OS.MkdirAll (fullPath s path).

(** [FSStorage.Delete]: a missing object is not an error. *)
Definition Delete (s : FSStorage) (path : string) : M FS unit := fun fs =>
  match OS.Remove (fullPath s path) fs with
  | (Err err, fs') => if IsNotExist err then (Ok tt, fs') else (Err err, fs')
  | r => r
  end.

End Storage.

(* ===================================================================== *)
(** ** [github.com/google/uuid] *)
(* ===================================================================== *)

Module UUID.

(** [uuid.UUID(v)]: the conversion of a slice to a 16-byte array takes the
    first 16 bytes and panics on a shorter slice. *)
Definition of_slice (v : list byte) : outcome (list byte) :=
  if (length v <? 16)%nat then
    Panic "cannot convert slice to array: length of slice is less than 16"
  else Ok (take 16 v).

(** [UUID.String]: xxxxxxxx-xxxx-xxxx-xxxx-xxxxxxxxxxxx. *)
Definition String (u : list byte) : string :=
  Hex.EncodeToString (take 4 u) +:+ "-" +:+
  Hex.EncodeToString (take 2 (drop 4 u)) +:+ "-" +:+
  Hex.EncodeToString (take 2 (drop 6 u)) +:+ "-" +:+
  Hex.EncodeToString (take 2 (drop 8 u)) +:+ "-" +:+
  Hex.EncodeToString (take 6 (drop 10 u)).

(** The canonical form of a UUID: 36 characters with hyphens after the
    8th, 12th, 16th and 20th hexadecimal digit. *)
Definition canonical (c : string) : Prop :=
  String.length c = 36%nat /\
  String.get 8 c = Some "-"%char /\ String.get 13 c = Some "-"%char /\
  String.get 18 c = Some "-"%char /\ String.get 23 c = Some "-"%char.

End UUID.

(* ===================================================================== *)
(** ** The per-table log ([log.go]) *)
(* ===================================================================== *)

Module LogDB.

(** A row of [schema_log]. *)
Record SchemaRow := { timestamp : Z; raw_query : string }.

(** A row of [insert_log]. *)
Record InsertRow := {
  id : list byte;
  partition : string;
  tombstoned_unix_time : Z;
  size : Z
}.

(** The content of a [log.db] file. *)
Record t := { schema_log : list SchemaRow; insert_log : list InsertRow }.

Definition empty : t := {| schema_log := []; insert_log := [] |}.

Definition by_timestamp (r1 r2 : SchemaRow) : Prop := timestamp r1 <= timestamp r2.

#[global] Instance by_timestamp_dec r1 r2 : Decision (by_timestamp r1 r2).
Proof. unfold by_timestamp. apply _. Defined.

(** [SELECT raw_query FROM schema_log ORDER BY timestamp ASC]. *)
Definition select_raw_queries (d : t) : list string :=
  map raw_query (merge_sort by_timestamp (schema_log d)).

(** [INSERT INTO insert_log (id, partition) VALUES (u, '')]; the other
    columns take their defaults. *)
Definition new_row (u : list byte) : InsertRow :=
  {| id := u; partition := ""; tombstoned_unix_time := 0; size := 0 |}.

Definition has_id (u : list byte) (d : t) : bool :=
  existsb (fun r => bool_decide (id r = u)) (insert_log d).

Definition add_row (r : InsertRow) (d : t) : t :=
  {| schema_log := schema_log d; insert_log := insert_log d ++ [r] |}.

(** [UPDATE insert_log SET size = sz WHERE id = uuidStr]. *)
Definition update_size (sz : Z) (uuidStr : string) (d : t) : t :=
  {| schema_log := schema_log d;
     insert_log :=
       map (fun r =>
              if String.eqb (UUID.String (id r)) uuidStr
              then {| id := id r; partition := partition r;
                      tombstoned_unix_time := tombstoned_unix_time r; size := sz |}
              else r)
           (insert_log d) |}.

(** The live set: the rows with [tombstoned_unix_time = 0]. *)
Definition live (d : t) : list InsertRow :=
  filter (fun r => tombstoned_unix_time r = 0) (insert_log d).

End LogDB.

Module Log.

Local Open Scope go_scope.

(** Everything outside the process that the log touches: the files, the
    DuckDB database files by path, and the statements executed so far in
    the open transaction of the in-memory analytical database. *)
Record World := {
  files : OS.FS;
  databases : gmap string LogDB.t;
  session : list string
}.

Definition with_files (f : OS.FS) (w : World) : World :=
  {| files := f; databases := databases w; session := session w |}.
Definition with_databases (d : gmap string LogDB.t) (w : World) : World :=
  {| files := files w; databases := d; session := session w |}.
Definition with_session (s : list string) (w : World) : World :=
  {| files := files w; databases := databases w; session := s |}.

(** Runs a computation on the files inside the world. *)
Definition on_files {A} (m : M OS.FS A) : M World A := fun w =>
  let '(r, f) := m (files w) in (r, with_files f w).

(** The calls on the log database connection that can fail on their own. *)
Inductive site :=
| InitializeDuckDB | AttachDatabase | CreateSchema
| QuerySchemaLog | ScanSchemaLog | InsertLog | UpdateSize.

(** What the database engine answers. A result set is delivered whole. *)
Record Engine := {
  (** the error, if any, of a call on the log database connection *)
  fault : site -> option string;
  (** [tx.Exec]: the error, if any, of a statement in the analytical
      transaction, given the statements executed in it before *)
  exec_error : list string -> string -> option string;
  (** the value of [uuidv7()] *)
  uuidv7 : LogDB.t -> list byte;
  (** the file [COPY table TO ... (FORMAT PARQUET)] writes *)
  parquet : list string -> string -> list byte
}.

Record Log := { db : option string; tableName : string }.

Definition NewLog (tableName : string) : Log :=
  {| db := None; tableName := tableName |}.

Section WithEngine.

Variable E : Engine.

(** A call on the log database connection. *)
Definition call (s : site) : M World unit :=
  match fault E s with
  | Some msg => fail (ErrorNew msg)
  | None => ret tt
  end.

(** The log database behind a connection. *)
Definition database (h : string) (w : World) : LogDB.t :=
  default LogDB.empty (databases w !! h).

Definition set_database (h : string) (d : LogDB.t) : M World unit := fun w =>
  (Ok tt, with_databases (<[h := d]> (databases w)) w).

(** [tx.Exec(query)] on the analytical transaction. *)
Definition txExec (query : string) : M World unit := fun w =>
  match exec_error E (session w) query with
  | Some msg => (Err (ErrorNew msg), w)
  | None => (Ok tt, with_session (session w ++ [query]) w)
  end.

(** [tx.Rollback()] on the analytical transaction: what was executed in
    it is dropped. The log databases are other connections and the
    files are not transactional. *)
Definition txRollback (w : World) : World := with_session [] w.

Definition logDir (l : Log) : string := Filepath.Join ["storage"; tableName l; "log"].
Definition dbPath (l : Log) : string := Filepath.Join [logDir l; "log.db"].

(** The connection [getDB] returns for [l]. *)
Definition handle (l : Log) : string := default (dbPath l) (db l).

(** [Log.getDB]: the connection (named by the path of the attached
    file) and the log with the connection stored. *)
Definition getDB (l : Log) : M World (string * Log) :=
  match db l with
  | Some h => ret (h, l)
  | None =>
      (* Create storage directory structure *)
      do! wrap "failed to create log directory: " (on_files (OS.MkdirAll (logDir l))) in
      (* Initialize main database connection *)
      do! wrap "failed to initialize database: " (call InitializeDuckDB) in
      (* Attach log database *)
      do! wrap "failed to attach log database: " (call AttachDatabase) in
      let! w := get in
      do! set_database (dbPath l) (database (dbPath l) w) in
      (* Create schema if needed *)
      do! wrap "failed to create schema_log table: " (call CreateSchema) in
      ret (dbPath l, {| db := Some (dbPath l); tableName := tableName l |})
  end.

(** The loop over the rows of [schema_log] in [RecreateSchema]. *)
Fixpoint replay (queries : list string) : M World unit :=
  match queries with
  | [] => ret tt
  | createQuery :: rest =>
      do! wrap "failed to scan schema_log row: " (call ScanSchemaLog) in
      (* Execute the create table statement *)
      do! wrap "failed to execute schema_log query: " (txExec createQuery) in
      replay rest
  end.

(** [Log.RecreateSchema]. The methods of [*Log] return the log as they
    leave it, since [getDB] stores the connection in it. *)
Definition RecreateSchema (l : Log) : M World Log :=
  let! (h, l') := wrap "failed to get log database: " (getDB l) in
  (* Query schema_log for all create table statements *)
  do! wrap "failed to query schema_log: " (call QuerySchemaLog) in
  let! w := get in
  do! replay (LogDB.select_raw_queries (database h w)) in
  ret l'.

(** [strconv.Quote] as [%q] applies it, for text made of printable
    ASCII, tabs and line ends. *)
Fixpoint quote_body (s : string) : string :=
  match s with
  | EmptyString => EmptyString
  | String a s' =>
      let backslash := "092"%char in
      (if Ascii.eqb a "010"%char then String backslash "n"
       else if Ascii.eqb a "009"%char then String backslash "t"
       else if Ascii.eqb a "013"%char then String backslash "r"
       else if Ascii.eqb a "034"%char then String backslash (String a "")
       else if Ascii.eqb a backslash then String backslash (String a "")
       else String a "") +:+ quote_body s'
  end.
Definition Quote (s : string) : string :=
  String "034"%char (quote_body s) +:+ String "034"%char "".

Definition tab : string := String "009"%char "".
Definition nl : string := String "010"%char "".

Definition dataDir (table : string) : string := Filepath.Join ["storage"; table; "data"].
Definition parquetPath (table uuidStr : string) : string :=
  Filepath.Join [dataDir table; uuidStr +:+ ".parquet"].
Definition copyQuery (table uuidStr : string) : string :=
  nl +:+ tab +:+ tab +:+ "COPY " +:+ table +:+ " TO '" +:+ parquetPath table uuidStr
     +:+ "' (FORMAT PARQUET);" +:+ nl +:+ tab.

(** The directory [storage] and what is below it, and the worlds that
    agree on every path outside it. *)
Definition under_storage (k : string) : Prop :=
  k = "storage" \/ GoStrings.HasPrefix k "storage/" = true.

Definition outside_kept (w w' : World) : Prop :=
  forall k, ~ under_storage k ->
    files w' !! k = files w !! k /\ databases w' !! k = databases w !! k.

(** The error prefixes of the steps of [Insert] that follow the write
    of the log row. *)
Definition later_prefix (table : string) (u : list byte) (prefix : string) : Prop :=
  prefix = "failed to create data directory: " \/
  prefix = "failed to copy to parquet with query: "
             +:+ Quote (copyQuery table (UUID.String (take 16 u))) +:+ ": " \/
  prefix = "failed to get parquet file size: " \/
  prefix = "failed to update insert_log size: ".

(** [INSERT INTO insert_log (id, partition) VALUES (uuidv7(), '')
    RETURNING id] on the log database: [id] is the primary key. *)
Definition insertLogRow (h : string) : M World (list byte) :=
  do! call InsertLog in
  let! w := get in
  let d := database h w in
  let u := uuidv7 E d in
  if LogDB.has_id u d then
    fail (ErrorNew "Constraint Error: Duplicate key violates primary key constraint")
  else
    do! set_database h (LogDB.add_row (LogDB.new_row u) d) in
    ret u.

(** [tx.Exec(copyQuery)]: the engine writes the parquet file. *)
Definition txCopy (table uuidStr : string) : M World unit :=
  let! w := get in
  let content := parquet E (session w) table in
  do! txExec (copyQuery table uuidStr) in
  fun w' =>
    match on_files (OS.WriteFile (parquetPath table uuidStr) content) w' with
    | (Err e, w'') => (Err (ErrorNew ("IO Error: " +:+ Error e)), w'')
    | r => r
    end.

(** [Log.Insert]; the [query] argument is not used, and the integer
    returned next to the error (0, or -1 with an error) is left out. *)
Definition Insert (l : Log) (table : string) (query : string) : M World Log :=
  (* First insert into insert_log to generate UUID *)
  let! (h, l') := wrap "failed to get log database: " (getDB l) in
  (* Insert and get UUID using RETURNING *)
  let! uuidBytes := wrap "failed to insert into insert_log: " (insertLogRow h) in
  (* Convert UUID bytes to string for filename *)
  let! u := lift (UUID.of_slice uuidBytes) in
  let uuidStr := UUID.String u in
  (* Create storage directory structure *)
  do! wrap "failed to create data directory: " (on_files (OS.MkdirAll (dataDir table))) in
  (* Execute COPY TO PARQUET using the transaction *)
  do! wrap ("failed to copy to parquet with query: "
              +:+ Quote (copyQuery table uuidStr) +:+ ": ")
           (txCopy table uuidStr) in
  (* Get file size *)
  let! fileInfo := wrap "failed to get parquet file size: "
                        (on_files (OS.Stat (parquetPath table uuidStr))) in
  (* Update size in insert_log *)
  do! wrap "failed to update insert_log size: " (call UpdateSize) in
  let! w := get in
  do! set_database h (LogDB.update_size (OS.Size fileInfo) uuidStr (database h w)) in
  ret l'.

(** [Log.RecreateAsView]: the loop leaves after the first row. *)
Definition RecreateAsView (l : Log) : M World Log :=
  (* filels = list of files with tombstone 0 ordered by id desc *)
  let! (h, l') := wrap "failed to get log database: " (getDB l) in
  (* Query schema_log for all create table statements *)
  do! wrap "failed to query schema_log: " (call QuerySchemaLog) in
  let! w := get in
  match LogDB.select_raw_queries (database h w) with
  | [] => ret l'
  | createQuery :: _ =>
      do! wrap "failed to scan schema_log row: " (call ScanSchemaLog) in
      do! wrap "failed to execute schema_log query: " (txExec createQuery) in
      ret l'
  end.

(** [INSERT INTO schema_log (timestamp, raw_query) VALUES
    (CURRENT_TIMESTAMP, raw)]: [timestamp] is the primary key. *)
Definition has_timestamp (t : Z) (d : LogDB.t) : bool :=
  existsb (fun r => Z.eqb (LogDB.timestamp r) t) (LogDB.schema_log d).

Definition add_schema_row (r : LogDB.SchemaRow) (d : LogDB.t) : LogDB.t :=
  {| LogDB.schema_log := LogDB.schema_log d ++ [r];
     LogDB.insert_log := LogDB.insert_log d |}.

(** [Log.createTable] (the one that uses [getDB]). [now] is the value of
    [CURRENT_TIMESTAMP] and [rejected] the error, if any, with which the
    engine refuses the INSERT; the integer returned next to the error is
    left out. *)
Definition createTable (now : Z) (rejected : option string) (l : Log)
           (rawCreateTable : string) : M World Log :=
  let! (h, l') := getDB l in
  (* Insert the raw query *)
  do! wrap "failed to log table creation: "
        (match rejected with
         | Some msg => fail (ErrorNew msg)
         | None =>
             let! w := get in
             let d := database h w in
             if has_timestamp now d then
               fail (ErrorNew "Constraint Error: Duplicate key violates primary key constraint")
             else
               set_database h
                 (add_schema_row {| LogDB.timestamp := now;
                                    LogDB.raw_query := rawCreateTable |} d)
         end) in
  ret l'.

End WithEngine.

End Log.

(* ===================================================================== *)
(** ** [encoding/json] *)
(* ===================================================================== *)

Module Json.

(** The JSON document [json.Marshal] writes, as a tree. [JSeconds ns] is
    the number that [time.Duration(ns).Seconds()] encodes to. *)
Inductive t :=
| JNull
| JString (s : string)
| JNumber (n : Z)
| JSeconds (ns : Z)
| JArray (items : list t)
| JObject (fields : list (string * t)).

(** A slice encodes as an array, and as [null] when it is nil. *)
Definition slice {A} (enc : A -> t) (s : option (list A)) : t :=
  match s with
  | None => JNull
  | Some l => JArray (map enc l)
  end.

Fixpoint lookup (key : string) (fields : list (string * t)) : option t :=
  match fields with
  | [] => None
  | (k, v) :: rest => if String.eqb k key then Some v else lookup key rest
  end.

(** The member [key] of an object. *)
Definition field (key : string) (j : t) : option t :=
  match j with
  | JObject fields => lookup key fields
  | _ => None
  end.

End Json.

(* ===================================================================== *)
(** ** The dispatcher ([icebase.go]) *)
(* ===================================================================== *)

Module IceBase.

Local Open Scope go_scope.

(** Modelled from the spec: the operation kinds of the SQL classifier,
    whose source (the parser) is not part of the sources embedded here. *)
Inductive Operation := OpCreateTable | OpInsert | OpSelect | OpVacuum | OpOther.

#[global] Instance Operation_eq_dec : EqDecision Operation.
Proof. solve_decision. Defined.

Record MetaEntry := { Name : string; Type_ : string }.

(** [QueryResponse]. The slices [Meta] and [Data] are [None] when nil;
    a cell of [Data] always holds a string; [Elapsed] is kept in
    nanoseconds. *)
Record QueryResponse := {
  Meta : option (list MetaEntry);
  Data : option (list (list string));
  Rows : Z;
  Elapsed : Z
}.

(** [json.Marshal(response)] for [response *QueryResponse]. *)
Definition Marshal (response : option QueryResponse) : Json.t :=
  match response with
  | None => Json.JNull
  | Some r =>
      Json.JObject
        [("meta", Json.slice (fun m => Json.JObject [("name", Json.JString (Name m));
                                                     ("type", Json.JString (Type_ m))])
                             (Meta r));
         ("data", Json.slice (fun row => Json.JArray (map Json.JString row)) (Data r));
         ("rows", Json.JNumber (Rows r));
         ("statistics", Json.JObject [("elapsed", Json.JSeconds (Elapsed r))])]
  end.

(** A value the driver scans into an [interface{}]. [VOther text] is a
    value of any other type, with the text [%v] prints for it. *)
Inductive value :=
| VNil
| VBytes (v : list byte)
| VInt (n : Z)
| VString (s : string)
| VBool (b : bool)
| VOther (text : string).

(** [fmt.Sprintf("%v", v)]. *)
Definition Sprintf_v (v : value) : string :=
  match v with
  | VNil => "<nil>"
  | VBytes b => "[" +:+ GoStrings.Join (map (fun x => pretty (Byte.to_N x)) b) " " +:+ "]"
  | VInt n => pretty n
  | VString s => s
  | VBool b => if b then "true" else "false"
  | VOther text => text
  end.

(** [*sql.Rows]: what [Columns] and [ColumnTypes] (their
    [DatabaseTypeName]s) return, and for each row that [Next] reaches the
    values the driver has for it or the error of reading it. *)
Record SqlRows := {
  Columns : outcome (list string);
  ColumnTypes : outcome (list string);
  Scanned : list (outcome (list value))
}.

(** The body of the loop over [values] in [ExecuteQuery]. *)
Definition serializeCell (type : string) (v : value) : outcome string :=
  match v with
  | VNil => Ok "NULL"
  | VBytes b =>
      (* Handle UUID specifically *)
      if String.eqb type "UUID" then
        match UUID.of_slice b with
        | Ok u => Ok (UUID.String u)
        | Err e => Err e
        | Panic msg => Panic msg
        end
      else Ok (Sprintf_v v)
  | _ => Ok (Sprintf_v v)
  end.

Fixpoint serializeRow (meta : list MetaEntry) (values : list value)
  : outcome (list string) :=
  match values, meta with
  | [], _ => Ok []
  | _ :: _, [] => Panic "index out of range"
  | v :: values', m :: meta' =>
      match serializeCell (Type_ m) v with
      | Ok c =>
          match serializeRow meta' values' with
          | Ok cs => Ok (c :: cs)
          | r => r
          end
      | Err e => Err e
      | Panic msg => Panic msg
      end
  end.

(** Populate meta information: [Meta[i].Type = columnTypes[i]...]. *)
Fixpoint populateMeta (columns columnTypes : list string) : outcome (list MetaEntry) :=
  match columns, columnTypes with
  | [], _ => Ok []
  | _ :: _, [] => Panic "index out of range"
  | col :: columns', ty :: types' =>
      match populateMeta columns' types' with
      | Ok ms => Ok ({| Name := col; Type_ := ty |} :: ms)
      | r => r
      end
  end.

(** [rows.Scan(valuePtrs...)] with one destination per column. *)
Definition Scan (ncols : nat) (row : outcome (list value)) : outcome (list value) :=
  match row with
  | Ok vals =>
      if (length vals =? ncols)%nat then Ok vals
      else Err (ErrorNew ("sql: expected " +:+ pretty (length vals)
                            +:+ " destination arguments in Scan, not " +:+ pretty ncols))
  | r => r
  end.

(** [append(data, rowData)]. *)
Definition append {A} (s : option (list A)) (x : A) : option (list A) :=
  match s with
  | None => Some [x]
  | Some l => Some (l ++ [x])%list
  end.

(** [len(s)]. *)
Definition len {A} (s : option (list A)) : Z :=
  match s with
  | None => 0
  | Some l => Z.of_nat (length l)
  end.

(** The elements of a slice. *)
Definition elems {A} (s : option (list A)) : list A := default [] s.

(** The loop [for rows.Next()] of [ExecuteQuery]. *)
Fixpoint scanRows (meta : list MetaEntry) (ncols : nat)
         (rows : list (outcome (list value))) (data : option (list (list string)))
  : outcome (option (list (list string))) :=
  match rows with
  | [] => Ok data
  | row :: rest =>
      match Scan ncols row with
      | Ok values =>
          match serializeRow meta values with
          | Ok rowData => scanRows meta ncols rest (append data rowData)
          | Err e => Err e
          | Panic msg => Panic msg
          end
      | Err e => Err (ErrorWrap "failed to scan row: " e)
      | Panic msg => Panic msg
      end
  end.

Definition wrapped {A} (prefix : string) (o : outcome A) : outcome A :=
  match o with
  | Err e => Err (ErrorWrap prefix e)
  | r => r
  end.

(** The branch [err == nil] of [ExecuteQuery]: meta and data. *)
Definition readRows (rows : SqlRows)
  : outcome (list MetaEntry * option (list (list string))) :=
  match wrapped "failed to get columns: " (Columns rows) with
  | Ok columns =>
      match wrapped "failed to get column types: " (ColumnTypes rows) with
      | Ok columnTypes =>
          match populateMeta columns columnTypes with
          | Ok meta =>
              match scanRows meta (length columns) (Scanned rows) None with
              | Ok data => Ok (meta, data)
              | Err e => Err e
              | Panic msg => Panic msg
              end
          | Err e => Err e
          | Panic msg => Panic msg
          end
      | Err e => Err e
      | Panic msg => Panic msg
      end
  | Err e => Err e
  | Panic msg => Panic msg
  end.

Record IceBaseOptions := { storageDir : string; enableQuerySplitting : bool }.

Definition IceBaseOption : Type := IceBaseOptions -> IceBaseOptions.

Definition WithStorageDir (dir : string) : IceBaseOption :=
  fun o => {| storageDir := dir; enableQuerySplitting := enableQuerySplitting o |}.

Definition WithQuerySplittingEnabled : IceBaseOption :=
  fun o => {| storageDir := storageDir o; enableQuerySplitting := true |}.

(** [IceBase]; [dataDB] tells whether the in-memory database has been
    opened. The parser field is the function [Parse] of the backend. [L]
    is the type [*Log] of the values of [logs]: the [Log] that
    [icebase.go] uses (made by a two-argument [NewLog], with the methods
    listed in [Backend] below) is not the one of [log.go]. *)
Record IceBase (L : Type) := {
  dataDB : bool;
  logs : gmap string L;
  options : IceBaseOptions;
  ib_storageDir : string;
  authToken : string
}.
Arguments dataDB {L}.
Arguments logs {L}.
Arguments options {L}.
Arguments ib_storageDir {L}.
Arguments authToken {L}.

(** [NewIceBase]; [bearer] is the value of [BEARER_TOKEN]. *)
Definition NewIceBase {L} (bearer : string) (opts : list IceBaseOption) : IceBase L :=
  let options :=
    fold_left (fun o opt => opt o) opts
              {| storageDir := "icebase_tables"; enableQuerySplitting := false |} in
  {| dataDB := false; logs := ∅; options := options;
     ib_storageDir := storageDir options; authToken := bearer |}.

(** The recursive function [separateComments] of [SplitNonEmptyQueries];
    it returns what it appends to [filtered]. Each call works on a
    shorter string, so [fuel] above the length of [s] is never used up. *)
Fixpoint separateComments (fuel : nat) (s : string) : list string :=
  match fuel with
  | O => []
  | S fuel' =>
      let trimmed := GoStrings.TrimSpace s in
      if String.eqb trimmed "" then []
      else if negb (GoStrings.HasPrefix trimmed "--") then [trimmed]
      else
        (* split once *)
        match GoStrings.SplitN2 trimmed "010"%char with
        | (part0, Some part1) => part0 :: separateComments fuel' part1
        | (part0, None) => [part0]
        end
  end.

(** [SplitNonEmptyQueries] splits a string of queries by semicolon, and
    splits comments from the queries by newline. *)
Definition SplitNonEmptyQueries (body : string) : list string :=
  concat (map (fun q => separateComments (S (String.length q)) q)
              (GoStrings.Split body ";"%char)).

(** The state of the process and of what it talks to: the [IceBase]
    value and the state [St] of the databases and files. *)
Definition onSt {St L A} (m : M St A) : M (IceBase L * St) A := fun s =>
  let '(r, st) := m (snd s) in (r, (fst s, st)).

(** The collaborators of the dispatcher. [Parse], [OpString], the
    two-argument [NewLog], and the methods [CreateViewOfParquet],
    [PlaySchemaLogForward], [Merge], [logDDL] and the two-argument [Insert]
    of [Log] are called by [logByName] and [handleQuery]; their sources are
    not among the ones embedded here, so the dispatcher is stated over any
    implementation of them and over any type [L] of logs. The other fields
    are [database/sql] and the clock. *)
Record Backend (St L : Type) := {
  Parse : string -> Operation * string;
  OpString : Operation -> string;
  (** [InitializeDuckDB()] for the in-memory database *)
  InitializeDuckDB : M St unit;
  (** [dataConn.Begin()] *)
  Begin : M St unit;
  (** [dataTx.Rollback()]; its error is only logged *)
  Rollback : St -> St;
  (** [dataTx.Query(query)] *)
  Query : string -> M St SqlRows;
  (** the clock, in nanoseconds *)
  Now : St -> Z;
  (** [NewLog(storageDir, tableName)] *)
  NewLog : string -> string -> L;
  CreateViewOfParquet : L -> M St unit;
  PlaySchemaLogForward : L -> M St unit;
  Merge : L -> string -> M St unit;
  logDDL : L -> string -> M St unit;
  Insert : L -> string -> M St unit
}.
Arguments Parse {St L}.
Arguments OpString {St L}.
Arguments InitializeDuckDB {St L}.
Arguments Begin {St L}.
Arguments Rollback {St L}.
Arguments Query {St L}.
Arguments Now {St L}.
Arguments NewLog {St L}.
Arguments CreateViewOfParquet {St L}.
Arguments PlaySchemaLogForward {St L}.
Arguments Merge {St L}.
Arguments logDDL {St L}.
Arguments Insert {St L}.

Section Dispatcher.

Context {St L : Type}.
Variable B : Backend St L.

(** [ExecuteQuery]. *)
Definition ExecuteQuery (query : string) : M St QueryResponse := fun s =>
  let start := Now B s in
  (* Execute the query within transaction *)
  let '(res, s1) := Query B query s in
  let finish (meta : list MetaEntry) (data : option (list (list string))) :=
    {| Meta := Some meta; Data := data; Rows := len data;
       Elapsed := Now B s1 - start |} in
  match res with
  | Ok rows =>
      match readRows rows with
      | Ok (meta, data) => (Ok (finish meta data), s1)
      | Err e => (Err e, s1)
      | Panic msg => (Panic msg, s1)
      end
  | Err err =>
      if negb (String.eqb (Error err) "empty query")
      then (Err (ErrorWrap "query error: " err), s1)
      else (Ok (finish [] None), s1)
  | Panic msg => (Panic msg, s1)
  end.

(** [DataDB] returns the underlying DuckDB instance, initializing it if
    needed; it panics when that fails. *)
Definition DataDB : M (IceBase L * St) unit := fun s =>
  let ib := fst s in
  if dataDB ib then (Ok tt, s)
  else
    match InitializeDuckDB B (snd s) with
    | (Ok _, st) =>
        (Ok tt, ({| dataDB := true; logs := logs ib; options := options ib;
                    ib_storageDir := ib_storageDir ib; authToken := authToken ib |}, st))
    | (Err e, st) => (Panic ("failed to initialize database: " +:+ Error e), (ib, st))
    | (Panic msg, st) => (Panic msg, (ib, st))
    end.

(** [logByName]: the log of the table, created on first use. *)
Definition logByName (ib : IceBase L) (tableName : string) : L * IceBase L :=
  match logs ib !! tableName with
  | Some log => (log, ib)
  | None =>
      (* Create new log for table with storageDir from IceBase *)
      let log := NewLog B (ib_storageDir ib) tableName in
      (log, {| dataDB := dataDB ib; logs := <[tableName := log]> (logs ib);
               options := options ib; ib_storageDir := ib_storageDir ib;
               authToken := authToken ib |})
  end.

Definition getLog (tableName : string) : M (IceBase L * St) L := fun s =>
  let '(log, ib) := logByName (fst s) tableName in (Ok log, (ib, snd s)).

(** The statement handler of [handleQuery] after the transaction has
    begun; the deferred rollback is in [handleStatement]. *)
Definition statementBody (query : string) : M (IceBase L * St) QueryResponse :=
  let '(op, table) := Parse B query in
  let! dblog :=
    (if String.eqb table "" then ret None
     else let! l := getLog table in ret (Some l)) in
  do! match dblog with
      | Some l =>
          if bool_decide (op = OpSelect) || bool_decide (op = OpVacuum) then
            (* Recreate view using LOG database's file list in DATA transaction *)
            onSt (CreateViewOfParquet B l)
          else
            (* Recreate schema from LOG database in DATA transaction *)
            onSt (PlaySchemaLogForward B l)
      | None => ret tt
      end in
  let! response :=
    (* Duckdb doesn't actually support vacuum yet, so fake it *)
    (if bool_decide (op = OpVacuum) then
       if String.eqb table "" then fail (ErrorNew "VACUUM requires a table name")
       else
         let! l := wrap "failed to get log for VACUUM: " (getLog table) in
         (* Call merge on the log with table name *)
         do! wrap "VACUUM failed: " (onSt (Merge B l table)) in
         (* Return empty response since VACUUM doesn't produce data *)
         ret {| Meta := None; Data := Some []; Rows := 0; Elapsed := 0 |}
     else
       (* Execute query against DATA database *)
       onSt (ExecuteQuery query)) in
  do! match dblog with
      | Some l =>
          if bool_decide (op = OpCreateTable) then
            (* Log schema change to LOG database *)
            onSt (logDDL B l query)
          else ret tt
      | None => ret tt
      end in
  do! match dblog with
      | Some l =>
          if bool_decide (op = OpInsert) then
            (* Log insert to LOG database while executing in DATA transaction *)
            onSt (Insert B l table)
          else ret tt
      | None => ret tt
      end in
  (* No commit because log handles data persistence above *)
  ret response.

(** One turn of the loop of [handleQuery]: begin, handle, and roll
    back on the way out, also after an error or a panic. *)
Definition handleStatement (query : string) : M (IceBase L * St) QueryResponse :=
  fun s =>
    match onSt (wrap "failed to begin DATA transaction: " (Begin B)) s with
    | (Ok _, s1) =>
        let '(r, s2) := statementBody query s1 in
        (r, (fst s2, Rollback B (snd s2)))
    | (Err e, s1) => (Err e, s1)
    | (Panic msg, s1) => (Panic msg, s1)
    end.

(** The loop of [handleQuery]; [response] is the variable of that name. *)
Fixpoint handleStatements (queries : list string) (response : option QueryResponse)
  : M (IceBase L * St) (option QueryResponse) :=
  match queries with
  | [] => ret response
  | q :: rest =>
      let! r := handleStatement q in
      handleStatements rest (Some r)
  end.

(** [Succeed qs s rs s']: handled one after the other from the state
    [s], the statements [qs] all succeed, with the responses [rs], and
    leave the state [s']. *)
Inductive Succeed
  : list string -> IceBase L * St -> list QueryResponse -> IceBase L * St -> Prop :=
| Succeed_nil s : Succeed [] s [] s
| Succeed_cons q qs s r s1 rs s' :
    handleStatement q s = (Ok r, s1) -> Succeed qs s1 rs s' ->
    Succeed (q :: qs) s (r :: rs) s'.

(** The variable [response] after the statements answered [rs]. *)
Definition last_response (response : option QueryResponse) (rs : list QueryResponse)
  : option QueryResponse :=
  match last rs with
  | Some r => Some r
  | None => response
  end.

Definition filteredQueries (ib : IceBase L) (body : string) : list string :=
  if enableQuerySplitting (options ib) then SplitNonEmptyQueries body
  else
    (* When query splitting is disabled, treat entire body as single query *)
    [GoStrings.TrimSpace body].

(** [handleQuery]. The string it returns is the text of the JSON
    document; marshalling a [QueryResponse] does not fail. On an error
    it returns the empty string with the error: [Err]. *)
Definition handleQuery (body : string) : M (IceBase L * St) Json.t :=
  (* Get connection to main DATA database (in-memory DuckDB) *)
  do! DataDB in
  let! s := get in
  let! response := handleStatements (filteredQueries (fst s) body) None in
  ret (Marshal response).

(** [handleParse]. *)
Definition handleParse (body : string) : M (IceBase L * St) Json.t :=
  let '(op, table) := Parse B body in
  ret (Json.JObject [("operation", Json.JString (OpString B op));
                     ("table", Json.JString table)]).

(** [PostEndpoint]. *)
Definition PostEndpoint (endpoint : string) (body : string)
  : M (IceBase L * St) Json.t :=
  if String.eqb endpoint "/query" then handleQuery body
  else if String.eqb endpoint "/parse" then handleParse body
  else fail (ErrorNew ("unknown endpoint: " +:+ endpoint)).

End Dispatcher.

End IceBase.

(* ===================================================================== *)
(** ** The HTTP handler ([RequestHandler]) *)
(* ===================================================================== *)

Module Http.

Definition StatusOK : Z := 200.
Definition StatusBadRequest : Z := 400.
Definition StatusUnauthorized : Z := 401.
Definition StatusMethodNotAllowed : Z := 405.
Definition StatusInternalServerError : Z := 500.

Definition MethodOptions : string := "OPTIONS".
Definition MethodPost : string := "POST".

(** What the handler reads of [*http.Request]: [Authorization] is
    [r.Header.Get("Authorization")] and [Body] what [io.ReadAll(r.Body)]
    returns. *)
Record Request := {
  Method : string;
  URLPath : string;
  Authorization : string;
  Body : outcome string
}.

(** What is written to the response body. *)
Inductive chunk :=
| Text (s : string)
| JsonText (j : Json.t).

(** The [http.ResponseWriter]: the header map, the status once the
    header is written, and the body written so far. Writes succeed. *)
Record ResponseWriter := {
  header : gmap string string;
  status : option Z;
  body : list chunk
}.

Definition fresh : ResponseWriter := {| header := ∅; status := None; body := [] |}.

Definition SetHeader (key value : string) (w : ResponseWriter) : ResponseWriter :=
  {| header := <[key := value]> (header w); status := status w; body := body w |}.

Definition DelHeader (key : string) (w : ResponseWriter) : ResponseWriter :=
  {| header := delete key (header w); status := status w; body := body w |}.

(** [WriteHeader]: a second call changes nothing. *)
Definition WriteHeader (code : Z) (w : ResponseWriter) : ResponseWriter :=
  match status w with
  | Some _ => w
  | None => {| header := header w; status := Some code; body := body w |}
  end.

(** [Write]: it writes the header with 200 first when none was written. *)
Definition Write (c : chunk) (w : ResponseWriter) : ResponseWriter :=
  let w' := WriteHeader StatusOK w in
  {| header := header w'; status := status w'; body := body w' ++ [c] |}.

(** [http.Error]. *)
Definition Error_ (w : ResponseWriter) (msg : string) (code : Z) : ResponseWriter :=
  let w1 := DelHeader "Content-Length" w in
  let w2 := SetHeader "Content-Type" "text/plain; charset=utf-8" w1 in
  let w3 := SetHeader "X-Content-Type-Options" "nosniff" w2 in
  Write (Text (msg +:+ String "010"%char "")) (WriteHeader code w3).

(** The status the client receives: 200 when the handler returns without
    having written the header. *)
Definition sent_status (w : ResponseWriter) : Z := default StatusOK (status w).

Section Handler.

Context {St L : Type}.
Variable B : IceBase.Backend St L.

(** [RequestHandler]: the writer as the handler leaves it. A panic of
    the handler aborts the response. The access log line is not part
    of the model. *)
Definition RequestHandler (r : Request) (w : ResponseWriter)
  : M (IceBase.IceBase L * St) ResponseWriter := fun s =>
  let ib := fst s in
  (* Set CORS headers *)
  let w := SetHeader "Access-Control-Allow-Origin" "*" w in
  let w := SetHeader "Access-Control-Allow-Methods" "POST, GET, OPTIONS" w in
  let w := SetHeader "Access-Control-Allow-Headers" "Content-Type" w in
  (* If BEARER_TOKEN is set, enforce auth checking *)
  if negb (String.eqb (IceBase.authToken ib) "")
     && negb (String.eqb (Authorization r) ("Bearer " +:+ IceBase.authToken ib))
  then (Ok (Error_ w "Unauthorized" StatusUnauthorized), s)
  (* Handle preflight requests *)
  else if String.eqb (Method r) MethodOptions
  then (Ok (WriteHeader StatusOK w), s)
  else if negb (String.eqb (Method r) MethodPost)
  then (Ok (Error_ w "Method not allowed" StatusMethodNotAllowed), s)
  else
    match Body r with
    | Err err =>
        (Ok (Error_ w ("failed to read request body: " +:+ Error err) StatusBadRequest), s)
    | Panic msg => (Panic msg, s)
    | Ok body =>
        match IceBase.PostEndpoint B (URLPath r) body s with
        | (Err err, s') => (Ok (Error_ w (Error err) StatusBadRequest), s')
        | (Panic msg, s') => (Panic msg, s')
        | (Ok jsonResponse, s') =>
            (Ok (Write (JsonText jsonResponse)
                       (SetHeader "Content-Type" "application/json" w)), s')
        end
    end.

End Handler.

End Http.

(* ===================================================================== *)
(** ** Concrete inputs used by the examples below *)
(* ===================================================================== *)

Module Samples.

Definition bytes_of (s : string) : list byte :=
  map byte_of_ascii (list_ascii_of_string s).

(** A filesystem storage rooted at the default directory, and a file
    system in which [t/HEAD] holds the one byte [a]. *)
Definition store : Storage.FSStorage :=
  {| Storage.config := {| Storage.rootDir := "icebase_tables" |} |}.

Definition fs_a : OS.FS :=
  snd (Storage.Write store "t/HEAD" (bytes_of "a") [] ∅).

(** A UUIDv7. *)
Definition u1 : list byte :=
  [x01; x93; xab; xcd; xef; x01; x70; x00; x80; x00; x00; x00; x00; x00; x00; x01].

(** An engine on which every call succeeds. *)
Definition E0 : Log.Engine :=
  {| Log.fault := fun _ => None;
     Log.exec_error := fun _ _ => None;
     Log.uuidv7 := fun _ => u1;
     Log.parquet := fun _ _ => bytes_of "PAR1" |}.

(** An engine whose analytical side fails on [COPY] (the disk is full)
    and accepts everything else. *)
Definition Ecopy : Log.Engine :=
  {| Log.fault := fun _ => None;
     Log.exec_error := fun _ q =>
       if GoStrings.HasPrefix (GoStrings.TrimSpace q) "COPY"
       then Some "IO Error: Could not write file: No space left on device"
       else None;
     Log.uuidv7 := fun _ => u1;
     Log.parquet := fun _ _ => bytes_of "PAR1" |}.

(** An engine whose analytical side rejects the definition of [t2] and
    accepts everything else. *)
Definition Et2 : Log.Engine :=
  {| Log.fault := fun _ => None;
     Log.exec_error := fun _ q =>
       if GoStrings.HasPrefix q "CREATE TABLE t2"
       then Some "Catalog Error: Table with name t2 already exists!"
       else None;
     Log.uuidv7 := fun _ => u1;
     Log.parquet := fun _ _ => bytes_of "PAR1" |}.

Definition insert_query : string := "INSERT INTO t VALUES (1)".

(** Nothing on disk, nothing executed. *)
Definition w0 : Log.World :=
  {| Log.files := ∅; Log.databases := ∅; Log.session := [] |}.

(** The log of table [t] holds two DDL events and one live data file. *)
Definition w1 : Log.World :=
  {| Log.files := ∅;
     Log.databases :=
       {[ "storage/t/log/log.db" :=
            {| LogDB.schema_log :=
                 [ {| LogDB.timestamp := 5;
                      LogDB.raw_query := "CREATE TABLE t2 (name VARCHAR)" |};
                   {| LogDB.timestamp := 2;
                      LogDB.raw_query := "CREATE TABLE t (id BIGINT)" |} ];
               LogDB.insert_log := [LogDB.new_row u1] |} ]};
     Log.session := [] |}.

(** A backend whose state is the list of the statements it was asked to
    run. It answers [empty query] to an empty statement or a comment,
    rejects a statement that starts with [bad], and returns two rows
    otherwise; [SELECT 0] returns no row. *)
Definition toyQuery (q : string) : M (list string) IceBase.SqlRows := fun st =>
  let st' := (st ++ [q])%list in
  if String.eqb q "" || GoStrings.HasPrefix q "--" then (Err (ErrorNew "empty query"), st')
  else if GoStrings.HasPrefix q "bad" then
    (Err (ErrorNew "Parser Error: syntax error at or near bad"), st')
  else if String.eqb q "SELECT 0" then
    (Ok {| IceBase.Columns := Ok ["x"]; IceBase.ColumnTypes := Ok ["INTEGER"];
           IceBase.Scanned := [] |}, st')
  else
    (Ok {| IceBase.Columns := Ok ["x"; "id"];
           IceBase.ColumnTypes := Ok ["INTEGER"; "UUID"];
           IceBase.Scanned := [Ok [IceBase.VInt 1; IceBase.VBytes u1];
                               Ok [IceBase.VNil; IceBase.VNil]] |}, st').

Definition B0 : IceBase.Backend (list string) (string * string) :=
  {| IceBase.Parse := fun _ => (IceBase.OpOther, "");
     IceBase.OpString := fun _ => "OTHER";
     IceBase.InitializeDuckDB := ret tt;
     IceBase.Begin := ret tt;
     IceBase.Rollback := fun st => st;
     IceBase.Query := toyQuery;
     IceBase.Now := fun st => Z.of_nat (length st);
     IceBase.NewLog := fun storageDir tableName => (storageDir, tableName);
     IceBase.CreateViewOfParquet := fun _ => ret tt;
     IceBase.PlaySchemaLogForward := fun _ => ret tt;
     IceBase.Merge := fun _ _ => ret tt;
     IceBase.logDDL := fun _ _ => ret tt;
     IceBase.Insert := fun _ _ => ret tt |}.

(** The engine as [NewIceBase] builds it, without and with a bearer
    token, and with query splitting. *)
Definition ib0 : IceBase.IceBase (string * string) := IceBase.NewIceBase "" [].
Definition ib_secret : IceBase.IceBase (string * string) :=
  IceBase.NewIceBase "secret" [].
Definition ib_split : IceBase.IceBase (string * string) :=
  IceBase.NewIceBase "" [IceBase.WithQuerySplittingEnabled].

Definition options_request : Http.Request :=
  {| Http.Method := "OPTIONS"; Http.URLPath := "/query";
     Http.Authorization := ""; Http.Body := Ok "" |}.

Definition get_request : Http.Request :=
  {| Http.Method := "GET"; Http.URLPath := "/query";
     Http.Authorization := ""; Http.Body := Ok "" |}.

Definition comment_request : Http.Request :=
  {| Http.Method := "POST"; Http.URLPath := "/query";
     Http.Authorization := ""; Http.Body := Ok "  -- nothing to do " |}.

End Samples.

(* ===================================================================== *)
(** * Properties *)
(* ===================================================================== *)

(** ** Paths made of plain components *)

Module PathFacts.
Import GoStrings Filepath.
























End PathFacts.

(** ** Conditional writes of the filesystem backend *)

Module StorageFacts.
Import OS Storage.

Lemma walk_op fs op1 op2 path ps :
  walk fs op1 path ps = None -> walk fs op2 path ps = None.
Proof.
  induction ps as [|p ps IH]; simpl; [done|].
  destruct (implicit_dir p); [done|].
  destruct (fs !! p) as [[c|]|]; done.
Qed.

Lemma resolve_op fs op1 op2 p :
  resolve fs op1 p = None -> resolve fs op2 p = None.
Proof. apply walk_op. Qed.

Lemma cfg_last (opts : list WriteOption) e c0 :
  fold_left (fun c opt => opt c) (opts ++ [WithIfMatch e]) c0 = {| etag := e |}.
Proof. by rewrite fold_left_app. Qed.

(** [FSStorage.Stat] only reads. *)
Lemma Stat_reads s p fs : snd (Stat s p fs) = fs.
Proof.
  unfold Stat, bind, ret, OS.Stat, OS.ReadFile.
  repeat (case_match; simplify_eq/=; try done).
Qed.

(** A non-empty ETag is the MD5 of the content of a file. *)
Lemma Stat_etag s p fs fi :
  fst (Stat s p fs) = Ok fi -> ETag fi <> "" ->
  let full := Filepath.Clean (fullPath s p) in
  implicit_dir full = false /\ resolve fs "stat" full = None /\
  exists content, fs !! full = Some (File content) /\ ETag fi = bytesToETag content.
Proof.
  unfold Stat, bind, ret, OS.Stat, OS.ReadFile.
  intros H Hne.
  repeat (case_match; simplify_eq/=; try done).
  eauto 10.
Qed.

Lemma Stat_of_file s p fs content :
  let full := Filepath.Clean (fullPath s p) in
  implicit_dir full = false -> resolve fs "stat" full = None ->
  fs !! full = Some (File content) ->
  fst (Stat s p fs) = Ok {| name := Base full; size := Z.of_nat (length content);
                            ETag := bytesToETag content; isDir := false |}.
Proof.
  intros full Hi Hr Hf. subst full.
  unfold Stat, bind, ret, OS.Stat, OS.ReadFile. cbv zeta.
  rewrite Hi, Hr, Hf. cbn [IsDir].
  rewrite (resolve_op _ _ "open" _ Hr), Hf. done.
Qed.

Lemma eqb_false_iff (a b : string) : String.eqb a b = false <-> a <> b.
Proof. apply String.eqb_neq. Qed.

(** What [FSStorage.Stat] reports as a file is a file of the file system. *)
Lemma Stat_file s p fs fi :
  fst (Stat s p fs) = Ok fi -> isDir fi = false ->
  let full := Filepath.Clean (fullPath s p) in
  implicit_dir full = false /\ resolve fs "stat" full = None /\
  exists content, fs !! full = Some (File content).
Proof.
  unfold Stat, bind, ret, OS.Stat, OS.ReadFile.
  intros H Hne.
  repeat (case_match; simplify_eq/=; try done).
  eauto 10.
Qed.

(** C5, amended. For a non-empty [if_match] ETag [e], a write succeeds
    exactly when the stored object exists with ETag [e]; when the object
    exists with another ETag the write fails with the ETag-mismatch error
    and the files are unchanged; and when it succeeds the ETag was the
    MD5 of the content that the write replaces by [data]. With an empty
    [if_match] the write is not conditional: no ETag is looked at, the
    write is the plain write of the file (with the directory created when
    it is missing), and a stored file is replaced whatever its ETag. *)
Theorem Write_if_match s p data (opts : list WriteOption) e fs :
  (e <> "" ->
   (fst (Write s p data (opts ++ [WithIfMatch e]) fs) = Ok tt <->
      exists fi, fst (Stat s p fs) = Ok fi /\ ETag fi = e) /\
   (forall fi, fst (Stat s p fs) = Ok fi -> ETag fi <> e ->
      Write s p data (opts ++ [WithIfMatch e]) fs =
        (Err (ErrorNew ("IfMatch: ETag mismatch (current: " +:+ ETag fi +:+ ")")), fs)) /\
   (forall fi, fst (Stat s p fs) = Ok fi -> ETag fi = e ->
      exists content,
        fs !! Filepath.Clean (fullPath s p) = Some (File content) /\
        e = Hex.EncodeToString (MD5.Sum content) /\
        snd (Write s p data (opts ++ [WithIfMatch e]) fs)
          = <[Filepath.Clean (fullPath s p) := File data]> fs)) /\
  (e = "" ->
   let full := fullPath s p in
   Write s p data (opts ++ [WithIfMatch e]) fs
     = match OS.WriteFile full data fs with
       | (Err err, fs1) =>
           if IsNotExist err then
             let dir := Filepath.Dir full in
             (do! wrap ("failed to create directory " +:+ dir +:+ ": ") (OS.MkdirAll dir) in
              OS.WriteFile full data)%go fs1
           else (Err err, fs1)
       | r => r
       end /\
   (forall fi, fst (Stat s p fs) = Ok fi -> isDir fi = false ->
      Write s p data (opts ++ [WithIfMatch e]) fs
        = (Ok tt, <[Filepath.Clean full := File data]> fs))).
Proof.
  assert (Hcfg := cfg_last opts e {| etag := "" |}).
  split.
  { intros He.
    pose proof (Stat_reads s p fs) as Hrd.
    assert (Hwr : forall fi, fst (Stat s p fs) = Ok fi -> ETag fi = e ->
              exists content,
                fs !! Filepath.Clean (fullPath s p) = Some (File content) /\
                e = bytesToETag content /\
                Write s p data (opts ++ [WithIfMatch e]) fs
                  = (Ok tt, <[Filepath.Clean (fullPath s p) := File data]> fs)).
    { intros fi Hfi Hetag.
      destruct (Stat_etag s p fs fi Hfi) as (Hi & Hr & c & Hc & Hm); [congruence|].
      exists c. split; [done|]. split; [congruence|].
      unfold Write. rewrite Hcfg. unfold checkIfMatch, bind, wrap, ret, fail. simpl.
      apply eqb_false_iff in He. rewrite He.
      destruct (Stat s p fs) as [r fs0]. simpl in *. subst r fs0.
      rewrite Hetag, String.eqb_refl. simpl.
      unfold OS.WriteFile. cbv zeta.
      rewrite Hi, (resolve_op _ _ "open" _ Hr), Hc. done. }
    split; [split|split].
    - intros Hok. unfold Write in Hok. rewrite Hcfg in Hok.
      unfold checkIfMatch, bind, wrap, ret, fail in Hok. simpl in Hok.
      apply eqb_false_iff in He. rewrite He in Hok.
      destruct (Stat s p fs) as [[fi|e0|m] fs0]; simpl in *; try discriminate.
      exists fi. split; [done|].
      destruct (String.eqb (ETag fi) e) eqn:Heq; simpl in Hok; [|discriminate].
      by apply String.eqb_eq.
    - intros (fi & Hfi & Hetag).
      destruct (Hwr fi Hfi Hetag) as (c & _ & _ & ->). done.
    - intros fi Hfi Hne.
      unfold Write. rewrite Hcfg. unfold checkIfMatch, bind, wrap, ret, fail. simpl.
      apply eqb_false_iff in He. rewrite He.
      destruct (Stat s p fs) as [r fs0]. simpl in *. subst r fs0.
      apply eqb_false_iff in Hne. rewrite Hne. done.
    - intros fi Hfi Hetag.
      destruct (Hwr fi Hfi Hetag) as (c & Hc & Hm & Hw).
      exists c. rewrite Hw. done.
  }
  intros -> full.
  assert (Heq : Write s p data (opts ++ [WithIfMatch ""]) fs
     = match OS.WriteFile full data fs with
       | (Err err, fs1) =>
           if IsNotExist err then
             let dir := Filepath.Dir full in
             (do! wrap ("failed to create directory " +:+ dir +:+ ": ") (OS.MkdirAll dir) in
              OS.WriteFile full data)%go fs1
           else (Err err, fs1)
       | r => r
       end).
  { unfold Write. rewrite Hcfg. reflexivity. }
  split; [exact Heq|].
  intros fi Hfi Hd. rewrite Heq.
  destruct (Stat_file s p fs fi Hfi Hd) as (Hi & Hr & c & Hc).
  unfold OS.WriteFile. cbv zeta. subst full.
  rewrite Hi, (resolve_op _ _ "open" _ Hr), Hc. done.
Qed.

(** The theorem on the file [t/HEAD], whose content is the byte [a]: a
    write with a stale ETag is refused, a write with the empty ETag
    replaces the content. *)
Lemma Write_if_match_witness :
  "stale" <> "" /\
  Write Samples.store "t/HEAD" (Samples.bytes_of "b") [WithIfMatch "stale"] Samples.fs_a
    = (Err (ErrorNew "IfMatch: ETag mismatch (current: 0cc175b9c0f1b6a831c399e269772661)"),
       Samples.fs_a) /\
  Write Samples.store "t/HEAD" (Samples.bytes_of "b") [WithIfMatch ""] Samples.fs_a
    = (Ok tt, <["icebase_tables/t/HEAD" := File (Samples.bytes_of "b")]> Samples.fs_a).
Proof.
  pose (fi := {| name := "HEAD"; size := 1;
                 ETag := "0cc175b9c0f1b6a831c399e269772661"; isDir := false |}).
  assert (Hfi : fst (Stat Samples.store "t/HEAD" Samples.fs_a) = Ok fi)
    by (vm_compute; reflexivity).
  assert (Hne : "stale" <> "") by discriminate.
  split; [exact Hne|]. split.
  - exact (proj1 (proj2 (proj1 (Write_if_match Samples.store "t/HEAD" (Samples.bytes_of "b") []
                                  "stale" Samples.fs_a) Hne))
             fi Hfi ltac:(discriminate)).
  - exact (proj2 (proj2 (Write_if_match Samples.store "t/HEAD" (Samples.bytes_of "b") []
                           "" Samples.fs_a) eq_refl)
             fi Hfi eq_refl).
Defined.

(** C5 as stated fails at the empty ETag: the write to a path where
    nothing is stored succeeds. *)
Lemma Write_empty_if_match_unconditional :
  fst (Write Samples.store "t/x" (Samples.bytes_of "b") [WithIfMatch ""] ∅) = Ok tt /\
  ~ (exists fi, fst (Stat Samples.store "t/x" ∅) = Ok fi /\ ETag fi = "").
Proof.
  split; [vm_compute; reflexivity|].
  intros (fi & H & _). vm_compute in H. discriminate.
Qed.

End StorageFacts.

(** ** The per-table log *)

Module LogFacts.
Import Log.

#[local] Instance by_timestamp_trans : Transitive LogDB.by_timestamp.
Proof. unfold LogDB.by_timestamp. intros x y z. lia. Qed.

#[local] Instance by_timestamp_total : Total LogDB.by_timestamp.
Proof. unfold LogDB.by_timestamp. intros x y. lia. Qed.

Section WithEngine.
Variable E : Engine.

Lemma call_state s w r w' : call E s w = (r, w') -> w' = w.
Proof. unfold call, fail, ret. destruct (fault E s); congruence. Qed.

Lemma database_set h d w k :
  database k (with_databases (<[h := d]> (databases w)) w)
  = if decide (h = k) then d else database k w.
Proof.
  unfold database. simpl. rewrite lookup_insert. by case_decide.
Qed.

Lemma database_set_same h w k :
  database k (with_databases (<[h := database h w]> (databases w)) w) = database k w.
Proof. rewrite database_set. case_decide; congruence. Qed.

(** [getDB] leaves the transaction and the content of every log
    database as they are. *)
Lemma getDB_spec l w r w' :
  getDB E l w = (r, w') ->
  session w' = session w /\ (forall k, database k w' = database k w) /\
  match r with
  | Ok (h, l') => h = handle l /\ db l' = Some h /\ tableName l' = tableName l
  | _ => True
  end.
Proof.
  unfold getDB, handle. destruct (db l) as [h|] eqn:Hdb.
  - unfold ret. intros [= <- <-]. rewrite Hdb. done.
  - unfold bind, wrap, on_files, get, ret, set_database. intros H.
    destruct (OS.MkdirAll (logDir l) (files w)) as [[[]|e|m] f] eqn:Hmk;
      simpl in H; simplify_eq; try done.
    destruct (call E InitializeDuckDB _) as [[[]|e|m] w1] eqn:H1;
      apply call_state in H1; subst w1; simplify_eq; try done.
    destruct (call E AttachDatabase _) as [[[]|e|m] w1] eqn:H1;
      apply call_state in H1; subst w1; simplify_eq; try done.
    destruct (call E CreateSchema _) as [[[]|e|m] w1] eqn:H1;
      apply call_state in H1; subst w1; simplify_eq; simpl;
      (split; [done|]); (split; [|done]); intros k;
      apply (database_set_same (dbPath l) (with_files f w) k).
Qed.

Lemma replay_spec qs w r w' :
  replay E qs w = (r, w') ->
  files w' = files w /\ databases w' = databases w /\
  (r = Ok tt -> session w' = (session w ++ qs)%list).
Proof.
  revert w. induction qs as [|q qs IH]; intros w; simpl.
  - unfold ret. intros [= <- <-]. by rewrite app_nil_r.
  - unfold bind, wrap, txExec. intros H.
    destruct (call E ScanSchemaLog w) as [[[]|e|m] w1] eqn:H1;
      apply call_state in H1; subst w1; simplify_eq; try done.
    destruct (exec_error E (session w) q); simplify_eq; try done.
    apply IH in H as (Hf & Hd & Hs). simpl in *.
    split; [done|]. split; [done|]. intros Hr. rewrite (Hs Hr).
    by rewrite <- app_assoc.
Qed.

(** C6. When [RecreateSchema] succeeds, the statements it has executed
    in the transaction are the [raw_query] values of all the rows of
    [schema_log], each once, in ascending timestamp order; so every
    stored definition has been executed in the transaction. *)
Theorem RecreateSchema_replays l w l' w' :
  RecreateSchema E l w = (Ok l', w') ->
  let stored := LogDB.schema_log (database (handle l) w) in
  exists rows : list LogDB.SchemaRow,
    rows ≡ₚ stored /\
    StronglySorted LogDB.by_timestamp rows /\
    session w' = (session w ++ map LogDB.raw_query rows)%list /\
    (forall r, r ∈ stored -> LogDB.raw_query r ∈ session w').
Proof.
  unfold RecreateSchema, bind, wrap, get, ret. intros H.
  destruct (getDB E l w) as [[[h l1]|e|m] w1] eqn:Hg; simplify_eq.
  apply getDB_spec in Hg as (Hs & Hd & -> & _ & _).
  destruct (call E QuerySchemaLog w1) as [[[]|e|m] w2] eqn:H1;
    apply call_state in H1; subst w2; simplify_eq.
  destruct (replay E _ w1) as [[[]|e|m] w2] eqn:Hr; simplify_eq.
  apply replay_spec in Hr as (_ & _ & Hr). specialize (Hr eq_refl).
  unfold LogDB.select_raw_queries in Hr. rewrite Hd, Hs in Hr.
  exists (merge_sort LogDB.by_timestamp (LogDB.schema_log (database (handle l) w))).
  split; [apply merge_sort_Permutation|].
  split; [apply (StronglySorted_merge_sort _)|].
  split; [done|].
  intros r Hin. rewrite Hr. apply elem_of_app. right.
  apply list_elem_of_fmap. exists r. split; [done|].
  by rewrite merge_sort_Permutation.
Qed.

Lemma on_files_spec {A} (m : M OS.FS A) w r w' :
  on_files m w = (r, w') -> databases w' = databases w /\ session w' = session w.
Proof. unfold on_files. destruct (m (files w)). intros [= <- <-]. done. Qed.

Lemma insertLogRow_spec h w r w' :
  insertLogRow E h w = (r, w') ->
  session w' = session w /\ files w' = files w /\
  match r with
  | Ok u => u = uuidv7 E (database h w) /\
            database h w' = LogDB.add_row (LogDB.new_row u) (database h w)
  | _ => w' = w
  end.
Proof.
  unfold insertLogRow, bind, get, ret, fail, set_database. intros H.
  destruct (call E InsertLog w) as [[[]|e|m] w1] eqn:H1;
    apply call_state in H1; subst w1; simplify_eq; try done.
  destruct (LogDB.has_id _ _); simplify_eq; try done.
  simpl. repeat split. rewrite database_set. by case_decide.
Qed.

(** The steps of [Insert] after the row is written do not touch the log
    database unless all of them succeed. *)
Lemma txCopy_spec table uuidStr w r w' :
  txCopy E table uuidStr w = (r, w') -> databases w' = databases w.
Proof.
  unfold txCopy, bind, get, txExec, on_files. intros H.
  destruct (exec_error E (session w) _); simplify_eq; [done|].
  simpl in H. destruct (OS.WriteFile _ _ _) as [[[]|e|m] f]; simplify_eq; done.
Qed.

(** C1, amended. When [Insert] fails before or at the write of the
    [insert_log] row, [insert_log] is unchanged. When it fails at a later
    step (the data directory, the COPY, the stat, the size update), the
    row written first stays in [insert_log], live and with size 0, also
    after the analytical transaction is rolled back. *)
Theorem Insert_failure l table query w e w' :
  Insert E l table query w = (Err e, w') ->
  let h := handle l in
  let before := LogDB.insert_log (database h w) in
  let after := LogDB.insert_log (database h (txRollback w')) in
  (after = before /\
   exists e0, e = ErrorWrap "failed to get log database: " e0 \/
              e = ErrorWrap "failed to insert into insert_log: " e0)
  \/
  (exists u, u = uuidv7 E (database h w) /\
             after = (before ++ [LogDB.new_row u])%list /\
             LogDB.new_row u ∈ LogDB.live (database h (txRollback w')) /\
             exists prefix e0, e = ErrorWrap prefix e0 /\ later_prefix table u prefix).
Proof.
  intros H h before after. subst before after.
  unfold Insert in H. unfold bind at 1 in H. unfold wrap at 1 in H.
  destruct (getDB E l w) as [[[h1 l1]|e1|m1] w1] eqn:Hg; simplify_eq;
    apply getDB_spec in Hg as (Hs1 & Hd1 & Hr1).
  2:{ left. unfold txRollback, database in *. simpl. split; [apply f_equal, Hd1|eauto]. }
  destruct Hr1 as (-> & _ & _). fold h in H.
  unfold bind at 1 in H. unfold wrap at 1 in H.
  destruct (insertLogRow E h w1) as [[u|e2|m2] w2] eqn:Hi; simplify_eq;
    apply insertLogRow_spec in Hi as (Hs2 & Hf2 & Hr2).
  2:{ subst. left. unfold txRollback, database in *. simpl.
      split; [apply f_equal, Hd1|eauto]. }
  destruct Hr2 as (Hu & Hdb). rewrite Hd1 in Hu, Hdb.
  right. exists u. split; [done|].
  assert (Hkeep : databases w' = databases w2 /\
                  exists prefix e0, e = ErrorWrap prefix e0 /\ later_prefix table u prefix).
  { unfold bind, lift, wrap, get, ret, set_database, UUID.of_slice in H.
    destruct (length u <? 16)%nat; [discriminate|].
    destruct (on_files (OS.MkdirAll (dataDir table)) w2) as [[[]|e3|m3] w3] eqn:H3;
      simplify_eq; apply on_files_spec in H3 as (Hd3 & _).
    2:{ split; [done|]. do 2 eexists. split; [done|]. unfold later_prefix. tauto. }
    destruct (txCopy E table _ w3) as [[[]|e4|m4] w4] eqn:H4;
      simplify_eq; apply txCopy_spec in H4.
    2:{ split; [congruence|]. do 2 eexists. split; [done|]. unfold later_prefix. tauto. }
    destruct (on_files (OS.Stat _) w4) as [[fi|e5|m5] w5] eqn:H5;
      simplify_eq; apply on_files_spec in H5 as (Hd5 & _).
    2:{ split; [congruence|]. do 2 eexists. split; [done|]. unfold later_prefix. tauto. }
    destruct (call E UpdateSize w5) as [[[]|e6|m6] w6] eqn:H6;
      apply call_state in H6; subst w6; simplify_eq.
    split; [congruence|]. do 2 eexists. split; [done|]. unfold later_prefix. tauto. }
  destruct Hkeep as (Hk & Hp).
  assert (Hafter : database h (txRollback w') = database h w2).
  { unfold txRollback, database. simpl. by rewrite Hk. }
  rewrite Hafter, Hdb. simpl. split; [done|]. split; [|done].
  unfold LogDB.live. simpl. apply list_elem_of_filter. split; [done|].
  apply elem_of_app. right. apply list_elem_of_singleton. done.
Qed.

(** [RecreateAsView] executes the first DDL of [schema_log] and nothing
    else; it does not read [insert_log]. *)
Lemma RecreateAsView_session l w l' w' :
  RecreateAsView E l w = (Ok l', w') ->
  session w' =
    (session w ++ take 1 (LogDB.select_raw_queries (database (handle l) w)))%list.
Proof.
  unfold RecreateAsView, bind, wrap, get, ret. intros H.
  destruct (getDB E l w) as [[[h l1]|e|m] w1] eqn:Hg; simplify_eq.
  apply getDB_spec in Hg as (Hs & Hd & -> & _ & _).
  destruct (call E QuerySchemaLog w1) as [[[]|e|m] w2] eqn:H1;
    apply call_state in H1; subst w2; simplify_eq.
  rewrite Hd in H.
  destruct (LogDB.select_raw_queries _) as [|q qs]; simplify_eq.
  - by rewrite Hs, app_nil_r.
  - destruct (call E ScanSchemaLog w1) as [[[]|e|m] w2] eqn:H1;
      apply call_state in H1; subst w2; simplify_eq.
    unfold txExec in H. destruct (exec_error E (session w1) q); simplify_eq.
    simpl. by rewrite Hs.
Qed.

End WithEngine.

(** The theorem on the log of [t] with its two DDL events. *)
Lemma RecreateSchema_replays_witness :
  let w' := snd (RecreateSchema Samples.E0 (NewLog "t") Samples.w1) in
  RecreateSchema Samples.E0 (NewLog "t") Samples.w1
    = (Ok {| db := Some "storage/t/log/log.db"; tableName := "t" |}, w') /\
  session w' = ["CREATE TABLE t (id BIGINT)"; "CREATE TABLE t2 (name VARCHAR)"] /\
  exists rows : list LogDB.SchemaRow,
    rows ≡ₚ LogDB.schema_log (database (handle (NewLog "t")) Samples.w1) /\
    StronglySorted LogDB.by_timestamp rows /\
    session w' = (session Samples.w1 ++ map LogDB.raw_query rows)%list /\
    (forall r, r ∈ LogDB.schema_log (database (handle (NewLog "t")) Samples.w1) ->
               LogDB.raw_query r ∈ session w').
Proof.
  intros w'.
  assert (H : RecreateSchema Samples.E0 (NewLog "t") Samples.w1
              = (Ok {| db := Some "storage/t/log/log.db"; tableName := "t" |}, w'))
    by (vm_compute; reflexivity).
  split; [exact H|]. split; [vm_compute; reflexivity|].
  exact (RecreateSchema_replays Samples.E0 (NewLog "t") Samples.w1 _ w' H).
Defined.

(** The theorem on an insert whose COPY fails. *)
Lemma Insert_failure_witness :
  let r := Insert Samples.Ecopy (NewLog "t") "t" Samples.insert_query Samples.w0 in
  exists e, r = (Err e, snd r) /\
    let h := handle (NewLog "t") in
    let before := LogDB.insert_log (database h Samples.w0) in
    let after := LogDB.insert_log (database h (txRollback (snd r))) in
    (after = before /\
     exists e0, e = ErrorWrap "failed to get log database: " e0 \/
                e = ErrorWrap "failed to insert into insert_log: " e0)
    \/
    (exists u, u = uuidv7 Samples.Ecopy (database h Samples.w0) /\
               after = (before ++ [LogDB.new_row u])%list /\
               LogDB.new_row u ∈ LogDB.live (database h (txRollback (snd r))) /\
               exists prefix e0, e = ErrorWrap prefix e0 /\ later_prefix "t" u prefix).
Proof.
  intros r.
  assert (H : exists e, r = (Err e, snd r)) by (eexists; vm_compute; reflexivity).
  destruct H as [e H]. exists e. split; [exact H|].
  exact (Insert_failure Samples.Ecopy (NewLog "t") "t" Samples.insert_query Samples.w0 e (snd r) H).
Defined.

(** C1 as stated fails when the COPY to parquet fails: after the
    rollback the row is committed and live, and its parquet file does not
    exist. *)
Lemma Insert_leaves_orphan_row :
  let r := Insert Samples.Ecopy (NewLog "t") "t" Samples.insert_query Samples.w0 in
  let w' := txRollback (snd r) in
  is_Ok (fst r) = false /\
  LogDB.live (database "storage/t/log/log.db" w') = [LogDB.new_row Samples.u1] /\
  parquetPath "t" (UUID.String Samples.u1)
    = "storage/t/data/0193abcd-ef01-7000-8000-000000000001.parquet" /\
  files w' !! "storage/t/data/0193abcd-ef01-7000-8000-000000000001.parquet" = None.
Proof. vm_compute. done. Qed.

(** C2 at the failing input. On a log with two DDL events and one live
    data file, [RecreateAsView] succeeds having executed the first DDL
    only: no view over [read_parquet] of the live file exists in the
    transaction. On an empty log it executes nothing. *)
Theorem RecreateAsView_replays_first_DDL_only :
  let r1 := RecreateAsView Samples.E0 (NewLog "t") Samples.w1 in
  let r0 := RecreateAsView Samples.E0 (NewLog "t") Samples.w0 in
  LogDB.live (database "storage/t/log/log.db" Samples.w1) = [LogDB.new_row Samples.u1] /\
  is_Ok (fst r1) = true /\ session (snd r1) = ["CREATE TABLE t (id BIGINT)"] /\
  is_Ok (fst r0) = true /\ session (snd r0) = [].
Proof. vm_compute. done. Qed.

End LogFacts.

(** ** Where the log keeps the state of a table *)

Module LogPathFacts.
Import GoStrings Filepath PathFacts Log LogFacts.











Lemma outside_refl w : outside_kept w w.
Proof. by intros k _. Qed.










Section WithEngine.
Variable E : Engine.





End WithEngine.



End LogPathFacts.

(** ** Serialisation of the cells of a response *)

Module ResponseFacts.
Import IceBase.

Lemma UUID_String_canonical (b : list byte) :
  length b = 16%nat -> UUID.canonical (UUID.String b).
Proof.
  intros H.
  do 17 (destruct b as [|? b]; try discriminate H).
  unfold UUID.canonical, UUID.String. cbn [take drop Hex.EncodeToString String.append].
  repeat split.
Qed.

Lemma of_slice_16 (b : list byte) : length b = 16%nat -> UUID.of_slice b = Ok b.
Proof.
  intros H. unfold UUID.of_slice. rewrite H. simpl.
  f_equal. apply take_ge. lia.
Qed.

Lemma serializeCell_spec type v c :
  serializeCell type v = Ok c ->
  (v = VNil -> c = "NULL") /\
  (forall b, v = VBytes b -> type = "UUID" -> length b = 16%nat ->
             c = UUID.String b /\ UUID.canonical c) /\
  (v <> VNil -> type <> "UUID" \/ (forall b, v <> VBytes b) -> c = Sprintf_v v).
Proof.
  intros H. split; [|split].
  - intros ->. simpl in H. congruence.
  - intros b -> -> Hb. simpl in H. rewrite (of_slice_16 b Hb) in H.
    injection H as <-. split; [done|]. by apply UUID_String_canonical.
  - intros Hv [Ht|Hb].
    + apply String.eqb_neq in Ht.
      destruct v; simpl in H; try rewrite Ht in H; try done; by injection H as <-.
    + destruct v; simpl in H; try done; try (by injection H as <-).
      by destruct (Hb v).
Qed.

Lemma serializeRow_lookup meta vals row j v :
  serializeRow meta vals = Ok row -> vals !! j = Some v ->
  exists m c, meta !! j = Some m /\ row !! j = Some c /\
              serializeCell (Type_ m) v = Ok c.
Proof.
  revert meta row j. induction vals as [|v0 vals IH]; intros meta row j H Hj.
  - discriminate.
  - destruct meta as [|m meta]; simpl in H; [discriminate|].
    destruct (serializeCell (Type_ m) v0) as [c0| |] eqn:Hc; try discriminate.
    destruct (serializeRow meta vals) as [cs| |] eqn:Hr; try discriminate.
    injection H as <-. destruct j as [|j]; simpl in *.
    + injection Hj as <-. eauto.
    + eapply IH; eauto.
Qed.

Lemma scanRows_spec meta n rs acc data :
  scanRows meta n rs acc = Ok data ->
  exists rows',
    elems data = (elems acc ++ rows')%list /\
    Forall2 (fun r row => exists vals, r = Ok vals /\ serializeRow meta vals = Ok row)
            rs rows'.
Proof.
  revert acc. induction rs as [|r rs IH]; intros acc H; simpl in H.
  - injection H as <-. exists []. by rewrite app_nil_r.
  - unfold Scan in H. destruct r as [vals|e|m]; try discriminate.
    destruct (length vals =? n)%nat; [|discriminate].
    destruct (serializeRow meta vals) as [row| |] eqn:Hrow; try discriminate.
    apply IH in H as (rows' & He & Hf).
    exists (row :: rows'). split.
    + rewrite He. destruct acc; simpl; [by rewrite <- app_assoc|done].
    + constructor; eauto.
Qed.

Lemma readRows_spec rows meta data :
  readRows rows = Ok (meta, data) ->
  Forall2 (fun r row => exists vals, r = Ok vals /\ serializeRow meta vals = Ok row)
          (Scanned rows) (elems data).
Proof.
  unfold readRows, wrapped. intros H.
  destruct (Columns rows) as [cols| |]; try discriminate.
  destruct (ColumnTypes rows) as [types| |]; try discriminate.
  destruct (populateMeta cols types) as [meta'| |]; try discriminate.
  destruct (scanRows _ _ _ _) as [data'| |] eqn:Hs; try discriminate.
  injection H as <- <-.
  apply scanRows_spec in Hs as (rows' & -> & Hf). done.
Qed.

Section WithBackend.
Context {St L : Type}.
Variable B : Backend St L.

(** C9. In the response of a query that returned rows, every cell is
    the serialisation of the value scanned for it: a NULL gives the
    string NULL; a UUID (the driver hands it over as 16 bytes) in a
    column of type UUID gives the canonical hyphenated form of the UUID;
    any other value that is not NULL (in a column of another type, or
    not a byte slice) gives its default string form. *)
Theorem cells_serialised query s rows resp s1 :
  Query B query s = (Ok rows, s1) ->
  fst (ExecuteQuery B query s) = Ok resp ->
  exists meta, Meta resp = Some meta /\
    forall i j vals v,
      Scanned rows !! i = Some (Ok vals) -> vals !! j = Some v ->
      exists m data row c,
        meta !! j = Some m /\ Data resp = Some data /\
        data !! i = Some row /\ row !! j = Some c /\
        (v = VNil -> c = "NULL") /\
        (forall b, v = VBytes b -> Type_ m = "UUID" -> length b = 16%nat ->
                   c = UUID.String b /\ UUID.canonical c) /\
        (v <> VNil -> Type_ m <> "UUID" \/ (forall b, v <> VBytes b) ->
         c = Sprintf_v v).
Proof.
  intros Hq H. unfold ExecuteQuery in H. rewrite Hq in H.
  destruct (readRows rows) as [[meta data]| |] eqn:Hr; try discriminate.
  simpl in H. injection H as <-. exists meta. split; [done|].
  intros i j vals v Hi Hj. simpl.
  apply readRows_spec in Hr.
  destruct (Forall2_lookup_l _ _ _ _ _ Hr Hi) as (row & Hrow & vals' & Hv & Hs).
  injection Hv as <-.
  destruct (serializeRow_lookup _ _ _ _ _ Hs Hj) as (m & c & Hm & Hc & Hcell).
  destruct data as [d|]; simpl in Hrow; [|by rewrite lookup_nil in Hrow].
  exists m, d, row, c. repeat (split; [done|]).
  by apply serializeCell_spec.
Qed.
End WithBackend.

(** The theorem on a query that returns an integer and a UUID, then two
    NULLs. *)
Lemma cells_serialised_witness :
  let rows := {| Columns := Ok ["x"; "id"]; ColumnTypes := Ok ["INTEGER"; "UUID"];
                 Scanned := [Ok [VInt 1; VBytes Samples.u1]; Ok [VNil; VNil]] |} in
  let resp := {| Meta := Some [ {| Name := "x"; Type_ := "INTEGER" |};
                                {| Name := "id"; Type_ := "UUID" |} ];
                 Data := Some [["1"; "0193abcd-ef01-7000-8000-000000000001"];
                               ["NULL"; "NULL"]];
                 Rows := 2; Elapsed := 1 |} in
  Query Samples.B0 "SELECT 1" [] = (Ok rows, ["SELECT 1"]) /\
  fst (ExecuteQuery Samples.B0 "SELECT 1" []) = Ok resp /\
  exists meta, Meta resp = Some meta /\
    forall i j vals v,
      Scanned rows !! i = Some (Ok vals) -> vals !! j = Some v ->
      exists m data row c,
        meta !! j = Some m /\ Data resp = Some data /\
        data !! i = Some row /\ row !! j = Some c /\
        (v = VNil -> c = "NULL") /\
        (forall b, v = VBytes b -> Type_ m = "UUID" -> length b = 16%nat ->
                   c = UUID.String b /\ UUID.canonical c) /\
        (v <> VNil -> Type_ m <> "UUID" \/ (forall b, v <> VBytes b) ->
         c = Sprintf_v v).
Proof.
  intros rows resp.
  assert (Hq : Query Samples.B0 "SELECT 1" [] = (Ok rows, ["SELECT 1"]))
    by (vm_compute; reflexivity).
  assert (Hx : fst (ExecuteQuery Samples.B0 "SELECT 1" []) = Ok resp)
    by (vm_compute; reflexivity).
  split; [exact Hq|]. split; [exact Hx|].
  exact (cells_serialised Samples.B0 "SELECT 1" [] rows resp ["SELECT 1"] Hq Hx).
Defined.

End ResponseFacts.

(** ** The dispatcher and the HTTP handler *)

Module DispatcherFacts.
Import GoStrings IceBase.

Lemma scanRows_not_empty meta n rs acc data :
  scanRows meta n rs acc = Ok data -> acc <> Some [] -> data <> Some [].
Proof.
  revert acc. induction rs as [|r rs IH]; intros acc H Hacc; simpl in H.
  - congruence.
  - destruct (Scan n r) as [vals| |]; try discriminate.
    destruct (serializeRow meta vals) as [row| |]; try discriminate.
    apply IH in H; [done|].
    destruct acc as [l|]; simpl; [|done]. by destruct l.
Qed.

Lemma len_0 {A} (s : option (list A)) : len s = 0 -> s = None \/ s = Some [].
Proof.
  destruct s as [[|x l]|]; simpl; auto. lia.
Qed.


Lemma length_string_of_list (l : list ascii) :
  String.length (string_of_list_ascii l) = length l.
Proof. induction l; simpl; congruence. Qed.

Lemma length_list_of_string (s : string) :
  length (list_ascii_of_string s) = String.length s.
Proof. induction s; simpl; congruence. Qed.

Lemma strip_codes_length codes l r :
  strip_codes codes l = Some r -> (length r <= length l)%nat.
Proof.
  revert l. induction codes as [|c codes IH]; intros l H; simpl in H.
  - injection H as <-. lia.
  - destruct l as [|a l]; [discriminate|].
    destruct (N.eqb _ _); [|discriminate]. apply IH in H. simpl. lia.
Qed.

Lemma strip_space_length encs l r :
  strip_space encs l = Some r -> (length r <= length l)%nat.
Proof.
  induction encs as [|e encs IH]; simpl; [discriminate|].
  destruct (strip_codes e l) eqn:He; [|done].
  intros [= <-]. by eapply strip_codes_length.
Qed.

Lemma trim_front_length n encs l : (length (trim_front n encs l) <= length l)%nat.
Proof.
  revert l. induction n as [|n IH]; intros l; simpl; [lia|].
  destruct (strip_space encs l) eqn:Hs; [|lia].
  apply strip_space_length in Hs. specialize (IH l0). lia.
Qed.

Lemma TrimSpace_length s : (String.length (TrimSpace s) <= String.length s)%nat.
Proof.
  unfold TrimSpace, TrimRightSpace, TrimLeftSpace.
  rewrite length_string_of_list, length_rev.
  etransitivity; [apply trim_front_length|]. rewrite length_rev.
  etransitivity; [apply trim_front_length|]. by rewrite length_list_of_string.
Qed.

Lemma SplitN2_length s sep p0 p1 :
  SplitN2 s sep = (p0, Some p1) -> (String.length p1 < String.length s)%nat.
Proof.
  revert p0. induction s as [|a s IH]; intros p0 H; simpl in H; [discriminate|].
  destruct (Ascii.eqb a sep).
  - simplify_eq. simpl. lia.
  - destruct (SplitN2 s sep) as [h t] eqn:Hs. simplify_eq.
    specialize (IH h eq_refl). simpl. lia.
Qed.

(** The result of [separateComments] does not depend on the fuel once it
    exceeds the length of the string. *)
Lemma separateComments_fuel n m s :
  (String.length s < n)%nat -> (String.length s < m)%nat ->
  separateComments n s = separateComments m s.
Proof.
  revert m s. induction n as [|n IH]; intros m s Hn Hm; [lia|].
  destruct m as [|m]; [lia|]. simpl.
  destruct (String.eqb (TrimSpace s) ""); [done|].
  destruct (negb _); [done|].
  destruct (SplitN2 (TrimSpace s) "010"%char) as [p0 [p1|]] eqn:Hs; [|done].
  apply SplitN2_length in Hs. pose proof (TrimSpace_length s).
  f_equal. apply IH; lia.
Qed.

(** [separateComments] satisfies the recursion of the source. *)
Lemma separateComments_unfold s :
  separateComments (S (String.length s)) s =
    let trimmed := TrimSpace s in
    if String.eqb trimmed "" then []
    else if negb (HasPrefix trimmed "--") then [trimmed]
    else match SplitN2 trimmed "010"%char with
         | (part0, Some part1) =>
             part0 :: separateComments (S (String.length part1)) part1
         | (part0, None) => [part0]
         end.
Proof.
  assert (Hstep : forall n,
    separateComments (S n) s =
      if String.eqb (TrimSpace s) "" then []
      else if negb (HasPrefix (TrimSpace s) "--") then [TrimSpace s]
      else match SplitN2 (TrimSpace s) "010"%char with
           | (part0, Some part1) => part0 :: separateComments n part1
           | (part0, None) => [part0]
           end) by reflexivity.
  rewrite Hstep. cbv zeta.
  destruct (String.eqb (TrimSpace s) ""); [done|].
  destruct (negb _); [done|].
  destruct (SplitN2 (TrimSpace s) "010"%char) as [p0 [p1|]] eqn:Hs; [|done].
  apply SplitN2_length in Hs. pose proof (TrimSpace_length s).
  f_equal. apply separateComments_fuel; lia.
Qed.

Lemma separateComments_nonempty n s q :
  q ∈ separateComments n s -> q <> "".
Proof.
  revert s. induction n as [|n IH]; intros s; simpl; [by intros ?%elem_of_nil|].
  destruct (String.eqb (TrimSpace s) "") eqn:He; [by intros ?%elem_of_nil|].
  apply String.eqb_neq in He.
  destruct (HasPrefix (TrimSpace s) "--") eqn:Hp; simpl.
  - destruct (TrimSpace s) as [|a t]; [done|]. simpl in Hp.
    destruct (Ascii.eqb a "-") eqn:Ha; [|discriminate].
    apply Ascii.eqb_eq in Ha. subst a. simpl.
    destruct (SplitN2 t "010"%char) as [h [p1|]].
    + intros [->|Hq]%elem_of_cons; [done|]. by eapply IH.
    + by intros ->%list_elem_of_singleton.
  - by intros ->%list_elem_of_singleton.
Qed.

Lemma SplitNonEmptyQueries_nonempty body q :
  q ∈ SplitNonEmptyQueries body -> q <> "".
Proof.
  unfold SplitNonEmptyQueries. intros H.
  apply list_elem_of_In, in_concat in H as (l & Hl & Hq).
  apply in_map_iff in Hl as (s & <- & _).
  apply list_elem_of_In in Hq. by eapply separateComments_nonempty.
Qed.

Section WithBackend.
Context {St L : Type}.
Variable B : Backend St L.

(** C4 on the code. When [ExecuteQuery] succeeds with zero rows, the
    [Data] slice of the response is nil and the [data] member of the
    JSON document is [null], not an empty array. *)
Theorem ExecuteQuery_no_rows_data_null query s resp :
  fst (ExecuteQuery B query s) = Ok resp -> Rows resp = 0 ->
  Data resp = None /\
  Json.field "data" (Marshal (Some resp)) = Some Json.JNull.
Proof.
  intros H H0.
  assert (Hd : Data resp = None).
  { unfold ExecuteQuery in H.
    destruct (Query B query s) as [[rows|err|m] s1]; try discriminate.
    - unfold readRows, wrapped in H.
      destruct (Columns rows) as [cols| |]; try discriminate.
      destruct (ColumnTypes rows) as [types| |]; try discriminate.
      destruct (populateMeta cols types) as [meta| |]; try discriminate.
      destruct (scanRows _ _ _ _) as [data| |] eqn:Hs; try discriminate.
      injection H as <-. simpl in *.
      destruct (len_0 _ H0) as [->| ->]; [done|].
      by apply scanRows_not_empty in Hs.
    - destruct (negb _); [discriminate|]. by injection H as <-. }
  split; [done|]. simpl. by rewrite Hd.
Qed.

(** C10. When the engine rejects the statement with an error whose
    text is [empty query], [ExecuteQuery] returns a response with zero
    rows and empty meta instead of an error; and a POST to [/query]
    whose body is that one statement (it names no table) is answered
    with status 200 and that response. *)
Theorem ExecuteQuery_empty_query query s err s1 :
  Query B query s = (Err err, s1) -> Error err = "empty query" ->
  let resp := {| Meta := Some []; Data := None; Rows := 0;
                 Elapsed := Now B s1 - Now B s |} in
  ExecuteQuery B query s = (Ok resp, s1) /\
  forall ib st0 ib1 st1 r w body op,
    (authToken ib = "" \/ Http.Authorization r = "Bearer " +:+ authToken ib) ->
    Http.Method r = "POST" -> Http.URLPath r = "/query" -> Http.Body r = Ok body ->
    filteredQueries ib body = [query] ->
    DataDB B (ib, st0) = (Ok tt, (ib1, st1)) -> Begin B st1 = (Ok tt, s) ->
    Parse B query = (op, "") -> op <> OpVacuum ->
    Http.status w = None ->
    exists w',
      Http.RequestHandler B r w (ib, st0) = (Ok w', (ib1, Rollback B s1)) /\
      Http.status w' = Some 200 /\
      Http.body w' = (Http.body w ++ [Http.JsonText (Marshal (Some resp))])%list.
Proof.
  intros Hq He resp.
  assert (Hx : ExecuteQuery B query s = (Ok resp, s1)).
  { unfold ExecuteQuery. rewrite Hq, He. done. }
  split; [done|].
  intros ib st0 ib1 st1 r w body op Hauth Hm Hp Hb Hqs Hdb Hbegin Hparse Hop Hw.
  assert (Hopts : options ib1 = options ib).
  { unfold DataDB in Hdb. simpl in Hdb. destruct (dataDB ib); [congruence|].
    destruct (InitializeDuckDB B st0) as [[[]| |] ?]; simplify_eq. done. }
  assert (Hh : handleQuery B body (ib, st0)
               = (Ok (Marshal (Some resp)), (ib1, Rollback B s1))).
  { unfold handleQuery, bind, get, ret. rewrite Hdb.
    cbn [fst]. replace (filteredQueries ib1 body) with [query]
      by (rewrite <- Hqs; unfold filteredQueries; by rewrite Hopts).
    cbn [handleStatements].
    unfold bind, handleStatement, onSt, wrap, ret. simpl. rewrite Hbegin.
    unfold statementBody. rewrite Hparse. cbn [String.eqb].
    unfold bind, ret, onSt. cbn [fst snd].
    rewrite (bool_decide_eq_false_2 (op = OpVacuum) Hop).
    cbn [fst snd]. rewrite Hx. done. }
  eexists. unfold Http.RequestHandler. simpl.
  assert (Ha : negb (authToken ib =? "")%string
               && negb (Http.Authorization r =? "Bearer " +:+ authToken ib)%string = false).
  { destruct Hauth as [-> | ->]; [done|]. rewrite String.eqb_refl.
    by rewrite andb_false_r. }
  rewrite Ha, Hm, Hb. simpl.
  unfold PostEndpoint. rewrite Hp. simpl. rewrite Hh.
  split; [done|]. unfold Http.Write, Http.WriteHeader. simpl. rewrite Hw. done.
Qed.

(** C8, amended. The bearer-token check comes first. A request that
    passes it (no token is configured, or the [Authorization] header is
    the expected one) is answered with status 200 and an empty body when
    it is an OPTIONS request, and with status 405 when its method is
    neither POST nor OPTIONS. A request that fails it (a token is
    configured and the header is another string) is answered with status
    401 and the text [Unauthorized], whatever its method, path and body;
    the engine is left as it was. *)
Theorem RequestHandler_methods ib st r w :
  Http.status w = None -> Http.body w = [] ->
  ((authToken ib = "" \/ Http.Authorization r = "Bearer " +:+ authToken ib) ->
   (Http.Method r = "OPTIONS" ->
    exists w', Http.RequestHandler B r w (ib, st) = (Ok w', (ib, st)) /\
               Http.status w' = Some 200 /\ Http.body w' = []) /\
   (Http.Method r <> "POST" -> Http.Method r <> "OPTIONS" ->
    exists w', Http.RequestHandler B r w (ib, st) = (Ok w', (ib, st)) /\
               Http.status w' = Some 405)) /\
  (authToken ib <> "" -> Http.Authorization r <> "Bearer " +:+ authToken ib ->
   exists w', Http.RequestHandler B r w (ib, st) = (Ok w', (ib, st)) /\
              Http.status w' = Some 401 /\
              Http.body w' = [Http.Text ("Unauthorized" +:+ String "010"%char "")]).
Proof.
  intros Hw Hb. split.
  - intros Hauth.
    assert (Ha : negb (authToken ib =? "")%string
                 && negb (Http.Authorization r =? "Bearer " +:+ authToken ib)%string = false).
    { destruct Hauth as [-> | ->]; [done|]. rewrite String.eqb_refl.
      by rewrite andb_false_r. }
    split.
    + intros Hm. eexists. unfold Http.RequestHandler. simpl. rewrite Ha, Hm. simpl.
      split; [done|]. unfold Http.WriteHeader. simpl. rewrite Hw. done.
    + intros Hp Ho. apply String.eqb_neq in Hp, Ho.
      eexists. unfold Http.RequestHandler. simpl.
      unfold Http.MethodOptions, Http.MethodPost. rewrite Ha, Ho, Hp. simpl.
      split; [done|]. unfold Http.Error_, Http.Write, Http.WriteHeader. simpl.
      rewrite Hw. simpl. done.
  - intros Ht Hh. apply String.eqb_neq in Ht, Hh.
    eexists. unfold Http.RequestHandler. simpl. rewrite Ht, Hh. simpl.
    split; [done|]. unfold Http.Error_, Http.Write, Http.WriteHeader. simpl.
    rewrite Hw, Hb. simpl. done.
Qed.

Lemma handleStatements_app qs1 qs2 response s rs s1 :
  Succeed B qs1 s rs s1 ->
  handleStatements B (qs1 ++ qs2) response s
  = handleStatements B qs2 (last_response response rs) s1.
Proof.
  intros H. revert response. induction H as [s|q qs s r s1 rs s' Hq _ IH]; intros response.
  - done.
  - simpl. unfold bind at 1. rewrite Hq. rewrite IH. f_equal.
    unfold last_response. rewrite last_cons. by destruct (last rs).
Qed.

(** C7. With query splitting enabled, the statements the body splits
    into are non-empty and are handled in order. If a statement fails
    after the ones before it succeeded, [handleQuery] returns its error
    (and no JSON) in the state that statement left: no later statement
    is handled. If all succeed, the JSON returned is the response of
    the last statement. *)
Theorem handleQuery_batch body ib st s0 :
  enableQuerySplitting (options ib) = true ->
  DataDB B (ib, st) = (Ok tt, s0) ->
  let qs := SplitNonEmptyQueries body in
  (forall q, q ∈ qs -> q <> "") /\
  (forall qs1 q qs2 rs s1 e s2,
     qs = (qs1 ++ q :: qs2)%list -> Succeed B qs1 s0 rs s1 ->
     handleStatement B q s1 = (Err e, s2) ->
     handleQuery B body (ib, st) = (Err e, s2)) /\
  (forall rs r s',
     Succeed B qs s0 (rs ++ [r])%list s' ->
     handleQuery B body (ib, st) = (Ok (Marshal (Some r)), s')).
Proof.
  intros Hsplit Hdb qs.
  assert (Hopts : options (fst s0) = options ib).
  { unfold DataDB in Hdb. simpl in Hdb. destruct (dataDB ib); [by simplify_eq|].
    destruct (InitializeDuckDB B st) as [[[]| |] ?]; simplify_eq. done. }
  assert (Hh : handleQuery B body (ib, st)
               = (let! response := handleStatements B qs None in
                  ret (Marshal response))%go s0).
  { unfold handleQuery. unfold bind at 1. rewrite Hdb.
    unfold bind at 1, get. unfold filteredQueries. rewrite Hopts, Hsplit. done. }
  split; [apply SplitNonEmptyQueries_nonempty|]. split.
  - intros qs1 q qs2 rs s1 e s2 Hqs Hok Herr.
    rewrite Hh. unfold bind at 1. rewrite Hqs.
    rewrite (handleStatements_app _ _ _ _ _ _ Hok). simpl.
    unfold bind at 1. rewrite Herr. done.
  - intros rs r s' Hok.
    rewrite Hh. unfold bind at 1.
    rewrite <- (app_nil_r qs).
    rewrite (handleStatements_app _ _ _ _ _ _ Hok). simpl.
    unfold last_response. rewrite last_snoc. done.
Qed.
End WithBackend.

(** The theorem on a query that returns a column and no row. *)
Lemma ExecuteQuery_no_rows_data_null_witness :
  let resp := {| Meta := Some [ {| Name := "x"; Type_ := "INTEGER" |} ];
                 Data := None; Rows := 0; Elapsed := 1 |} in
  fst (ExecuteQuery Samples.B0 "SELECT 0" []) = Ok resp /\ Rows resp = 0 /\
  Data resp = None /\
  Json.field "data" (Marshal (Some resp)) = Some Json.JNull.
Proof.
  intros resp.
  assert (Hx : fst (ExecuteQuery Samples.B0 "SELECT 0" []) = Ok resp)
    by (vm_compute; reflexivity).
  split; [exact Hx|]. split; [reflexivity|].
  exact (ExecuteQuery_no_rows_data_null Samples.B0 "SELECT 0" [] resp Hx eq_refl).
Defined.

(** The JSON document [handleQuery] returns for that query. *)
Lemma handleQuery_no_rows_document :
  fst (handleQuery Samples.B0 "SELECT 0" (Samples.ib0, []))
  = Ok (Json.JObject
          [("meta", Json.JArray [Json.JObject [("name", Json.JString "x");
                                               ("type", Json.JString "INTEGER")]]);
           ("data", Json.JNull);
           ("rows", Json.JNumber 0);
           ("statistics", Json.JObject [("elapsed", Json.JSeconds 1)])]).
Proof. vm_compute. reflexivity. Qed.

(** The response that the VACUUM branch of [handleQuery] builds does have
    an empty array as [data]; its [meta] is [null]. *)
Lemma VACUUM_response_document :
  Marshal (Some {| Meta := None; Data := Some []; Rows := 0; Elapsed := 0 |})
  = Json.JObject [("meta", Json.JNull); ("data", Json.JArray []);
                  ("rows", Json.JNumber 0);
                  ("statistics", Json.JObject [("elapsed", Json.JSeconds 0)])].
Proof. reflexivity. Qed.

(** The theorem on a comment sent to [/query]. *)
Lemma ExecuteQuery_empty_query_witness :
  let resp := {| Meta := Some []; Data := None; Rows := 0; Elapsed := 1 |} in
  Query Samples.B0 "-- nothing to do" []
    = (Err (ErrorNew "empty query"), ["-- nothing to do"]) /\
  ExecuteQuery Samples.B0 "-- nothing to do" [] = (Ok resp, ["-- nothing to do"]) /\
  exists w',
    Http.RequestHandler Samples.B0 Samples.comment_request Http.fresh (Samples.ib0, [])
      = (Ok w', (fst (snd (DataDB Samples.B0 (Samples.ib0, []))), ["-- nothing to do"])) /\
    Http.status w' = Some 200 /\
    Http.body w' = [Http.JsonText (Marshal (Some resp))].
Proof.
  intros resp.
  assert (Hq : Query Samples.B0 "-- nothing to do" []
               = (Err (ErrorNew "empty query"), ["-- nothing to do"]))
    by (vm_compute; reflexivity).
  destruct (ExecuteQuery_empty_query Samples.B0 "-- nothing to do" []
              (ErrorNew "empty query") ["-- nothing to do"] Hq eq_refl) as [Hx Hh].
  split; [exact Hq|]. split; [exact Hx|].
  exact (Hh Samples.ib0 [] (fst (snd (DataDB Samples.B0 (Samples.ib0, [])))) []
            Samples.comment_request Http.fresh "  -- nothing to do " OpOther
            (or_introl eq_refl) eq_refl eq_refl eq_refl eq_refl
            eq_refl eq_refl eq_refl ltac:(discriminate) eq_refl).
Defined.

(** The theorem on a token-less engine, OPTIONS and GET, and on an
    engine with a token, a POST without the header. *)
Lemma RequestHandler_methods_witness :
  (exists w', Http.RequestHandler Samples.B0 Samples.options_request Http.fresh
                (Samples.ib0, []) = (Ok w', (Samples.ib0, [])) /\
              Http.status w' = Some 200 /\ Http.body w' = []) /\
  (exists w', Http.RequestHandler Samples.B0 Samples.get_request Http.fresh
                (Samples.ib0, []) = (Ok w', (Samples.ib0, [])) /\
              Http.status w' = Some 405) /\
  (exists w', Http.RequestHandler Samples.B0 Samples.comment_request Http.fresh
                (Samples.ib_secret, []) = (Ok w', (Samples.ib_secret, [])) /\
              Http.status w' = Some 401 /\
              Http.body w' = [Http.Text ("Unauthorized" +:+ String "010"%char "")]).
Proof.
  split; [|split].
  - exact (proj1 (proj1 (RequestHandler_methods Samples.B0 Samples.ib0 []
                           Samples.options_request Http.fresh eq_refl eq_refl)
                        (or_introl eq_refl)) eq_refl).
  - exact (proj2 (proj1 (RequestHandler_methods Samples.B0 Samples.ib0 []
                           Samples.get_request Http.fresh eq_refl eq_refl)
                        (or_introl eq_refl))
                 ltac:(discriminate) ltac:(discriminate)).
  - exact (proj2 (RequestHandler_methods Samples.B0 Samples.ib_secret []
                    Samples.comment_request Http.fresh eq_refl eq_refl)
                 ltac:(discriminate) ltac:(discriminate)).
Defined.

(** C8 as stated fails when a bearer token is configured: an OPTIONS
    request without the [Authorization] header is answered with 401. *)
Lemma OPTIONS_without_token_unauthorized :
  let r := Http.RequestHandler Samples.B0 Samples.options_request Http.fresh
             (Samples.ib_secret, []) in
  exists w', fst r = Ok w' /\
             Http.status w' = Some 401 /\
             Http.body w' = [Http.Text ("Unauthorized" +:+ String "010"%char "")].
Proof. eexists. vm_compute. done. Qed.

(** The theorem on a batch of three statements whose second fails, and on
    a batch of two that succeed. *)
Lemma handleQuery_batch_witness :
  let s0 := snd (DataDB Samples.B0 (Samples.ib_split, [])) in
  enableQuerySplitting (options Samples.ib_split) = true /\
  DataDB Samples.B0 (Samples.ib_split, []) = (Ok tt, s0) /\
  SplitNonEmptyQueries "SELECT 1; bad; SELECT 2" = ["SELECT 1"; "bad"; "SELECT 2"] /\
  handleQuery Samples.B0 "SELECT 1; bad; SELECT 2" (Samples.ib_split, [])
    = (Err (ErrorWrap "query error: "
                      (ErrorNew "Parser Error: syntax error at or near bad")),
       (fst s0, ["SELECT 1"; "bad"])) /\
  SplitNonEmptyQueries "SELECT 1; SELECT 0" = ["SELECT 1"; "SELECT 0"] /\
  fst (handleQuery Samples.B0 "SELECT 1; SELECT 0" (Samples.ib_split, []))
    = Ok (Marshal (Some {| Meta := Some [ {| Name := "x"; Type_ := "INTEGER" |} ];
                           Data := None; Rows := 0; Elapsed := 1 |})).
Proof.
  intros s0.
  assert (Hdb : DataDB Samples.B0 (Samples.ib_split, []) = (Ok tt, s0))
    by (vm_compute; reflexivity).
  destruct (handleQuery_batch Samples.B0 "SELECT 1; bad; SELECT 2"
              Samples.ib_split [] s0 eq_refl Hdb) as (_ & Herr & _).
  destruct (handleQuery_batch Samples.B0 "SELECT 1; SELECT 0"
              Samples.ib_split [] s0 eq_refl Hdb) as (_ & _ & Hok).
  split; [reflexivity|]. split; [exact Hdb|].
  split; [vm_compute; reflexivity|]. split; [|split; [vm_compute; reflexivity|]].
  - eapply (Herr ["SELECT 1"] "bad" ["SELECT 2"]).
    + vm_compute; reflexivity.
    + eapply Succeed_cons; [vm_compute; reflexivity|apply Succeed_nil].
    + vm_compute; reflexivity.
  - erewrite (Hok [_] _ _); [reflexivity|].
    eapply Succeed_cons; [vm_compute; reflexivity|].
    eapply Succeed_cons; [vm_compute; reflexivity|apply Succeed_nil].
Defined.

End DispatcherFacts.

(** ** More on the filesystem backend: reads, deletes, directories *)

Module StorageMoreFacts.
Import OS Storage StorageFacts.

(** Writing a file where no directory is stored does not disturb the
    resolution of a path that resolved. *)
Lemma walk_insert_keep fs op path ps k v :
  walk fs op path ps = None -> implicit_dir k = false -> fs !! k <> Some Dir ->
  walk (<[k := v]> fs) op path ps = None.
Proof.
  intros H Hk Hd. induction ps as [|p ps IH]; simpl in *; [done|].
  destruct (implicit_dir p) eqn:Hp; [by apply IH|].
  destruct (fs !! p) as [[c|]|] eqn:Hl; try discriminate.
  assert (k <> p) by congruence.
  rewrite lookup_insert_ne by done. rewrite Hl. by apply IH.
Qed.

(** The error of a failed resolution does not depend on the operation. *)
Lemma walk_errno fs op1 op2 path ps op p n :
  walk fs op1 path ps = Some (PathError op p n) ->
  walk fs op2 path ps = Some (PathError op2 path n).
Proof.
  induction ps as [|q ps IH]; simpl; [done|].
  destruct (implicit_dir q); [done|].
  destruct (fs !! q) as [[c|]|]; [|done|]; by intros [= <- <- <-].
Qed.

Lemma walk_error_shape fs op path ps e :
  walk fs op path ps = Some e ->
  e = PathError op path ENOTDIR \/ e = PathError op path ENOENT.
Proof.
  induction ps as [|q ps IH]; simpl; [done|].
  destruct (implicit_dir q); [done|].
  destruct (fs !! q) as [[c|]|]; [|done|]; intros [= <-]; auto.
Qed.

(** [mkdirs] keeps what is stored and adds directories only. *)
Lemma mkdirs_spec ps fs r fs' :
  mkdirs ps fs = (r, fs') ->
  (forall k v, fs !! k = Some v -> fs' !! k = Some v) /\
  (forall k, fs !! k = None -> fs' !! k = None \/ fs' !! k = Some Dir).
Proof.
  revert fs. induction ps as [|p ps IH]; intros fs H; simpl in H.
  - injection H as <- <-. auto.
  - destruct (implicit_dir p); [by apply IH|].
    destruct (fs !! p) as [[c|]|] eqn:Hp.
    + injection H as <- <-. auto.
    + by apply IH.
    + apply IH in H as [H1 H2]. split.
      * intros k v Hk. apply H1. rewrite lookup_insert_ne; [done|congruence].
      * intros k Hk. destruct (decide (p = k)) as [->|Hne].
        -- right. apply H1. by rewrite lookup_insert_eq.
        -- apply H2. by rewrite lookup_insert_ne.
Qed.

Lemma WriteFile_inv name data fs r fs' :
  WriteFile name data fs = (r, fs') ->
  let p := Filepath.Clean name in
  (r = Ok tt /\ fs' = <[p := File data]> fs /\ implicit_dir p = false /\
   resolve fs "open" p = None /\ fs !! p <> Some Dir)
  \/ (exists e, r = Err e /\ fs' = fs).
Proof.
  unfold WriteFile. cbv zeta. intros H.
  destruct (implicit_dir _) eqn:Hi; [right; simplify_eq; eauto|].
  destruct (resolve _ _ _) eqn:Hr; [right; simplify_eq; eauto|].
  destruct (fs !! _) as [[c|]|] eqn:Hl; simplify_eq; [left|right; eauto|left];
    repeat split; try done; congruence.
Qed.

(** What a successful [Write] has done. *)
Lemma Write_ok_inv s p data opts fs fs' :
  Write s p data opts fs = (Ok tt, fs') ->
  let full := Filepath.Clean (fullPath s p) in
  exists fs0,
    fs' = <[full := File data]> fs0 /\ implicit_dir full = false /\
    resolve fs0 "open" full = None /\ fs0 !! full <> Some Dir /\
    (forall k v, fs !! k = Some v -> fs0 !! k = Some v) /\
    (forall k, fs !! k = None -> fs0 !! k = None \/ fs0 !! k = Some Dir).
Proof.
  intros H full. unfold Write in H.
  unfold bind at 1 in H.
  destruct (checkIfMatch _ _ _ fs) as [[[]|e|m] fs1] eqn:Hc; try discriminate.
  assert (fs1 = fs) as ->.
  { unfold checkIfMatch, bind, wrap, ret, fail in Hc.
    destruct (String.eqb _ ""); [by simplify_eq|].
    pose proof (Stat_reads s p fs) as Hs.
    destruct (Stat s p fs) as [[fi| |] fs2]; simpl in *; subst;
      repeat (case_match; simplify_eq); done. }
  destruct (WriteFile _ data fs) as [r1 fs2] eqn:Hw.
  apply WriteFile_inv in Hw as [(-> & -> & Hi & Hr & Hd)|(e & -> & ->)].
  - injection H as <-. exists fs. repeat split; auto.
  - destruct (IsNotExist e); [|discriminate].
    unfold bind, wrap, MkdirAll in H.
    destruct (mkdirs _ fs) as [[[]|e2|m2] fs3] eqn:Hm; try discriminate.
    apply mkdirs_spec in Hm as [Hm1 Hm2].
    destruct (WriteFile _ data fs3) as [r1 fs4] eqn:Hw.
    apply WriteFile_inv in Hw as [(-> & -> & Hi & Hr & Hd)|(e' & -> & ->)];
      [|discriminate].
    injection H as <-. exists fs3. repeat split; auto.
Qed.

Lemma Read_of_file s p fs content :
  let full := Filepath.Clean (fullPath s p) in
  implicit_dir full = false -> resolve fs "open" full = None ->
  fs !! full = Some (File content) ->
  Read s p fs = (Ok (content, {| name := Base full; size := Z.of_nat (length content);
                                 ETag := bytesToETag content; isDir := false |}), fs).
Proof.
  intros full Hi Hr Hf. subst full.
  unfold Read, bind, ret, OS.Stat, OS.ReadFile. cbv zeta.
  rewrite Hi, Hr, Hf. rewrite (resolve_op _ _ "stat" _ Hr), Hf. done.
Qed.

(** What [Write] has stored, [Read] returns: the data, its length, and
    the MD5 of the data as ETag; reading changes nothing. *)
Theorem Write_then_Read s p data opts fs fs' :
  Write s p data opts fs = (Ok tt, fs') ->
  Read s p fs' =
    (Ok (data, {| name := Base (Filepath.Clean (fullPath s p));
                  size := Z.of_nat (length data);
                  ETag := Hex.EncodeToString (MD5.Sum data); isDir := false |}), fs').
Proof.
  intros H. apply Write_ok_inv in H as (fs0 & -> & Hi & Hr & Hd & _).
  apply Read_of_file; [done| |by rewrite lookup_insert_eq].
  by apply walk_insert_keep.
Qed.

Lemma to_le_length n x : length (MD5.to_le n x) = n.
Proof. revert x. induction n; intros x; simpl; auto. Qed.

Lemma Hex_length bs : String.length (Hex.EncodeToString bs) = (2 * length bs)%nat.
Proof. induction bs; simpl; [done|]. rewrite IHbs. lia. Qed.

(** An ETag computed from content is 32 characters long. *)
Lemma bytesToETag_length data : String.length (bytesToETag data) = 32%nat.
Proof.
  unfold bytesToETag, MD5.Sum. rewrite Hex_length, length_map.
  rewrite !length_app, !to_le_length. done.
Qed.

Lemma bytesToETag_nonempty data : bytesToETag data <> "".
Proof.
  intros H. pose proof (bytesToETag_length data) as Hl. rewrite H in Hl. discriminate.
Qed.

Lemma Read_inv s p fs data fi fs' :
  Read s p fs = (Ok (data, fi), fs') ->
  let full := Filepath.Clean (fullPath s p) in
  fs' = fs /\ implicit_dir full = false /\ resolve fs "open" full = None /\
  fs !! full = Some (File data) /\
  fi = {| name := Base full; size := Z.of_nat (length data);
          ETag := bytesToETag data; isDir := false |}.
Proof.
  unfold Read, bind, ret, OS.Stat, OS.ReadFile. cbv zeta. intros H.
  destruct (implicit_dir _) eqn:Hi; [discriminate|].
  destruct (resolve fs "open" _) eqn:Hr; [discriminate|].
  destruct (fs !! _) as [[c|]|] eqn:Hl; try discriminate.
  rewrite (resolve_op _ _ "stat" _ Hr), Hl in H. by simplify_eq.
Qed.

Lemma Write_matching s p data (opts : list WriteOption) e fs content :
  let full := Filepath.Clean (fullPath s p) in
  e <> "" -> implicit_dir full = false -> resolve fs "open" full = None ->
  fs !! full = Some (File content) ->
  Write s p data (opts ++ [WithIfMatch e]) fs =
    if String.eqb (bytesToETag content) e
    then (Ok tt, <[full := File data]> fs)
    else (Err (ErrorNew ("IfMatch: ETag mismatch (current: "
                           +:+ bytesToETag content +:+ ")")), fs).
Proof.
  intros full He Hi Hr Hf. subst full.
  pose proof (Stat_of_file s p fs content Hi (resolve_op _ _ "stat" _ Hr) Hf) as Hst.
  pose proof (Stat_reads s p fs) as Hrd.
  remember (bytesToETag content) as et eqn:Het. clear Het.
  unfold Write. rewrite (cfg_last opts e).
  unfold checkIfMatch, bind, wrap, ret, fail. cbn [etag].
  apply String.eqb_neq in He. rewrite He.
  destruct (Stat s p fs) as [r fs0]. cbn [fst snd] in Hst, Hrd. subst r fs0.
  cbn [ETag negb].
  destruct (String.eqb et e); cbn [negb]; [|done].
  unfold OS.WriteFile. cbv zeta. rewrite Hi, Hr, Hf. done.
Qed.

(** The ETag that [Read] returns is never empty, and a write conditional
    on it succeeds as long as the object has not changed: it replaces
    the content. *)
Theorem Read_then_conditional_Write s p fs data fi fs1 new (opts : list WriteOption) :
  Read s p fs = (Ok (data, fi), fs1) ->
  fs1 = fs /\ ETag fi <> "" /\
  Write s p new (opts ++ [WithIfMatch (ETag fi)]) fs
    = (Ok tt, <[Filepath.Clean (fullPath s p) := File new]> fs).
Proof.
  intros H. apply Read_inv in H as (-> & Hi & Hr & Hf & ->). simpl.
  split; [done|]. split; [apply bytesToETag_nonempty|].
  rewrite (Write_matching s p new opts _ fs data (bytesToETag_nonempty data) Hi Hr Hf).
  by rewrite String.eqb_refl.
Qed.

(** Of two writers that hold the same ETag, the second loses: after a
    conditional write has stored data with another ETag, a write
    conditional on the old ETag fails with the ETag-mismatch error and
    the data of the first writer stays. *)
Theorem second_conditional_Write_loses s p d1 d2 (opts1 opts2 : list WriteOption) e fs fs1 :
  e <> "" ->
  Write s p d1 (opts1 ++ [WithIfMatch e]) fs = (Ok tt, fs1) ->
  Hex.EncodeToString (MD5.Sum d1) <> e ->
  Write s p d2 (opts2 ++ [WithIfMatch e]) fs1
    = (Err (ErrorNew ("IfMatch: ETag mismatch (current: "
                        +:+ Hex.EncodeToString (MD5.Sum d1) +:+ ")")), fs1) /\
  fs1 !! Filepath.Clean (fullPath s p) = Some (File d1).
Proof.
  intros He H Hne. apply Write_ok_inv in H as (fs0 & -> & Hi & Hr & Hd & _).
  assert (Hf : <[Filepath.Clean (fullPath s p) := File d1]> fs0
                 !! Filepath.Clean (fullPath s p) = Some (File d1))
    by apply lookup_insert_eq.
  split; [|done].
  rewrite (Write_matching s p d2 opts2 e _ d1 He Hi
             (walk_insert_keep _ _ _ _ _ _ Hr Hi Hd) Hf).
  apply String.eqb_neq in Hne. unfold bytesToETag. by rewrite Hne.
Qed.

Lemma checkIfMatch_reads s p cfg fs : snd (checkIfMatch s p cfg fs) = fs.
Proof.
  unfold checkIfMatch, bind, wrap, ret, fail.
  destruct (String.eqb _ ""); [done|].
  pose proof (Stat_reads s p fs) as Hs.
  destruct (Stat s p fs) as [[fi| |] fs2]; cbn [fst snd] in *; subst; [|done|done].
  by destruct (negb _).
Qed.

(** What [Write] does to the files, whatever its outcome: directories may
    have been added, and on success the file is stored. *)
Lemma Write_effect s p data opts fs r fs' :
  Write s p data opts fs = (r, fs') ->
  exists fs0,
    (forall k v, fs !! k = Some v -> fs0 !! k = Some v) /\
    (forall k, fs !! k = None -> fs0 !! k = None \/ fs0 !! k = Some Dir) /\
    ((r = Ok tt /\ fs' = <[Filepath.Clean (fullPath s p) := File data]> fs0)
     \/ (r <> Ok tt /\ fs' = fs0)).
Proof.
  intros H. unfold Write in H. unfold bind at 1 in H.
  pose proof (checkIfMatch_reads s p
                (fold_left (fun c opt => opt c) opts {| etag := "" |}) fs) as Hc.
  destruct (checkIfMatch _ _ _ fs) as [[[]|e|m] fs1]; cbn [snd] in Hc; subst fs1.
  2,3: injection H as <- <-; exists fs; split; [auto|]; split; [auto|]; by right.
  destruct (WriteFile _ data fs) as [r1 fs2] eqn:Hw.
  apply WriteFile_inv in Hw as [(-> & -> & _)|(e & -> & ->)].
  { injection H as <- <-. exists fs. split; [auto|]. split; [auto|]. by left. }
  destruct (IsNotExist e).
  2: { injection H as <- <-. exists fs. split; [auto|]. split; [auto|]. by right. }
  unfold bind, wrap, MkdirAll in H.
  destruct (mkdirs _ fs) as [[[]|e2|m2] fs3] eqn:Hm;
    apply mkdirs_spec in Hm as [Hm1 Hm2].
  2,3: injection H as <- <-; exists fs3; split; [auto|]; split; [auto|]; by right.
  destruct (WriteFile _ data fs3) as [r1 fs4] eqn:Hw.
  apply WriteFile_inv in Hw as [(-> & -> & _)|(e' & -> & ->)];
    injection H as <- <-; exists fs3; (split; [auto|]); (split; [auto|]);
    [by left|by right].
Qed.

(** [Write] touches one object: whatever its outcome, every other entry
    stays, no other file appears or changes, and a write that fails
    leaves every stored entry, the target too, as it was. *)
Theorem Write_keeps_other_entries s p data opts fs r fs' :
  Write s p data opts fs = (r, fs') ->
  let full := Filepath.Clean (fullPath s p) in
  (forall k v, k <> full -> fs !! k = Some v -> fs' !! k = Some v) /\
  (forall k c, k <> full -> fs' !! k = Some (File c) -> fs !! k = Some (File c)) /\
  (r <> Ok tt -> forall k v, fs !! k = Some v -> fs' !! k = Some v).
Proof.
  intros H full. apply Write_effect in H as (fs0 & H1 & H2 & Hc).
  assert (Hback : forall k c, fs0 !! k = Some (File c) -> fs !! k = Some (File c)).
  { intros k c Hv. destruct (fs !! k) as [v|] eqn:Hl.
    - apply H1 in Hl. congruence.
    - destruct (H2 k Hl); congruence. }
  destruct Hc as [(-> & ->)|(Hr & ->)].
  - split; [|split; [|done]].
    + intros k v Hk Hv. rewrite lookup_insert_ne by done. auto.
    + intros k c Hk Hv. rewrite lookup_insert_ne in Hv by done. auto.
  - split; [auto|]. split; [|auto]. intros k c _. apply Hback.
Qed.

(** Removing an entry does not turn a path that resolved into one that
    runs into a file. *)
Lemma walk_delete fs op path ps k :
  walk fs op path ps = None ->
  walk (delete k fs) op path ps = None \/
  walk (delete k fs) op path ps = Some (PathError op path ENOENT).
Proof.
  induction ps as [|q ps IH]; simpl; [auto|]. intros H.
  destruct (implicit_dir q); [auto|].
  destruct (fs !! q) as [[c|]|] eqn:Hl; try discriminate.
  destruct (decide (k = q)) as [->|Hne].
  - rewrite lookup_delete_eq. auto.
  - rewrite lookup_delete_ne by done. rewrite Hl. auto.
Qed.

Lemma resolve_ENOENT fs op1 op2 p e :
  resolve fs op1 p = Some e -> IsNotExist e = true ->
  resolve fs op2 p = Some (PathError op2 p ENOENT).
Proof.
  unfold resolve. intros H He.
  destruct (walk_error_shape _ _ _ _ _ H) as [->| ->]; [discriminate|].
  by apply (walk_errno _ _ op2) in H.
Qed.

Lemma Stat_missing s p fs :
  let full := Filepath.Clean (fullPath s p) in
  implicit_dir full = false ->
  (resolve fs "stat" full = Some (PathError "stat" full ENOENT) \/
   (resolve fs "stat" full = None /\ fs !! full = None)) ->
  exists e, Stat s p fs = (Err e, fs) /\ IsNotExist e = true.
Proof.
  intros full Hi H. subst full. unfold Stat, bind, OS.Stat. cbv zeta. rewrite Hi.
  destruct H as [-> | [-> ->]]; eauto.
Qed.

Lemma Delete_missing s p fs :
  let full := Filepath.Clean (fullPath s p) in
  implicit_dir full = false ->
  (resolve fs "remove" full = Some (PathError "remove" full ENOENT) \/
   (resolve fs "remove" full = None /\ fs !! full = None)) ->
  Delete s p fs = (Ok tt, fs).
Proof.
  intros full Hi H. subst full. unfold Delete, Remove. cbv zeta. rewrite Hi.
  destruct H as [-> | [-> ->]]; eauto.
Qed.

Lemma resolve_delete fs op1 op2 p :
  resolve fs op1 p = None ->
  resolve (delete p fs) op2 p = Some (PathError op2 p ENOENT) \/
  (resolve (delete p fs) op2 p = None /\ delete p fs !! p = None).
Proof.
  intros H. unfold resolve in *.
  destruct (walk_delete fs op2 p _ p (walk_op _ _ op2 _ _ H)) as [-> | ->]; [right|by left].
  split; [done|apply lookup_delete_eq].
Qed.

(** What a successful [Delete] leaves: the other entries as they were,
    an object that [Stat] reports as missing, and files on which
    deleting again succeeds and changes nothing. *)
Theorem Delete_removes s p fs fs1 :
  Delete s p fs = (Ok tt, fs1) ->
  (forall k, k <> Filepath.Clean (fullPath s p) -> fs1 !! k = fs !! k) /\
  (exists e, Stat s p fs1 = (Err e, fs1) /\ IsNotExist e = true) /\
  Delete s p fs1 = (Ok tt, fs1).
Proof.
  intros H.
  pose proof (Stat_missing s p fs1) as HS. pose proof (Delete_missing s p fs1) as HD.
  cbv zeta in HS, HD. revert H HS HD.
  unfold Delete at 1, Remove. cbv zeta.
  set (full := Filepath.Clean (fullPath s p)). intros H HS HD.
  destruct (implicit_dir full) eqn:Hi; [discriminate|].
  destruct (resolve fs "remove" full) as [e|] eqn:Hr.
  - destruct (IsNotExist e) eqn:He; [|discriminate]. injection H as <-.
    split; [done|]. split.
    + apply HS; [done|]. left. by apply (resolve_ENOENT _ "remove" _ _ e).
    + apply HD; [done|]. left. by apply (resolve_ENOENT _ "remove" _ _ e).
  - assert (Hdel : fs1 = delete full fs \/ (fs1 = fs /\ fs !! full = None)).
    { destruct (fs !! full) as [[c|]|] eqn:Hl.
      - injection H as <-. by left.
      - destruct (has_children fs full); [discriminate|]. injection H as <-. by left.
      - injection H as <-. by right. }
    destruct Hdel as [-> | [-> Hl]].
    + split; [intros k Hk; by rewrite lookup_delete_ne|]. split.
      * apply HS; [done|]. by apply (resolve_delete _ "remove").
      * apply HD; [done|]. by apply (resolve_delete _ "remove").
    + split; [done|]. split.
      * apply HS; [done|]. right. split; [|done]. by apply (resolve_op _ "remove").
      * apply HD; [done|]. by right.
Qed.

Lemma mkdirs_again ps fs fs' :
  mkdirs ps fs = (Ok tt, fs') -> mkdirs ps fs' = (Ok tt, fs').
Proof.
  revert fs. induction ps as [|q ps IH]; intros fs H; simpl in *.
  - by injection H as <-.
  - destruct (implicit_dir q); [by eapply IH|].
    destruct (fs !! q) as [[c|]|] eqn:Hq; try discriminate.
    + pose proof (mkdirs_spec _ _ _ _ H) as [Hk _].
      rewrite (Hk q Dir Hq). by eapply IH.
    + pose proof (mkdirs_spec _ _ _ _ H) as [Hk _].
      rewrite (Hk q Dir (lookup_insert_eq _ _ _)). by eapply IH.
Qed.

(** [CreateDir] only adds directories: what was stored stays, no file
    appears or changes, and once it has succeeded, creating the
    directory again succeeds and changes nothing. *)
Theorem CreateDir_adds_directories s p fs r fs1 :
  CreateDir s p fs = (r, fs1) ->
  (forall k v, fs !! k = Some v -> fs1 !! k = Some v) /\
  (forall k c, fs1 !! k = Some (File c) -> fs !! k = Some (File c)) /\
  (r = Ok tt -> CreateDir s p fs1 = (Ok tt, fs1)).
Proof.
  unfold CreateDir, MkdirAll. intros H.
  pose proof (mkdirs_spec _ _ _ _ H) as [H1 H2].
  split; [exact H1|]. split.
  - intros k c Hk. destruct (fs !! k) as [v|] eqn:Hl.
    + apply H1 in Hl. congruence.
    + destruct (H2 k Hl); congruence.
  - intros ->. by eapply mkdirs_again.
Qed.

Lemma CreateDir_adds_directories_witness :
  let r := CreateDir Samples.store "t/data" Samples.fs_a in
  fst r = Ok tt /\
  snd r !! "icebase_tables/t/HEAD" = Some (File (Samples.bytes_of "a")) /\
  CreateDir Samples.store "t/data" (snd r) = (Ok tt, snd r).
Proof.
  intros r.
  assert (Hr : fst r = Ok tt) by (vm_compute; reflexivity).
  destruct (CreateDir_adds_directories Samples.store "t/data" Samples.fs_a (fst r) (snd r)
              (surjective_pairing r)) as (H1 & _ & H3).
  split; [exact Hr|]. split; [|exact (H3 Hr)].
  apply H1. vm_compute. reflexivity.
Defined.

Lemma Write_then_Read_witness :
  let fs' := snd (Write Samples.store "t/HEAD" (Samples.bytes_of "a") [] ∅) in
  Read Samples.store "t/HEAD" fs' =
    (Ok (Samples.bytes_of "a",
         {| name := Base (Filepath.Clean (fullPath Samples.store "t/HEAD"));
            size := Z.of_nat (length (Samples.bytes_of "a"));
            ETag := Hex.EncodeToString (MD5.Sum (Samples.bytes_of "a"));
            isDir := false |}), fs').
Proof.
  intros fs'.
  apply (Write_then_Read Samples.store "t/HEAD" (Samples.bytes_of "a") [] ∅ fs').
  vm_compute. reflexivity.
Defined.

Lemma Read_then_conditional_Write_witness :
  let fi := {| name := "HEAD"; size := 1;
               ETag := "0cc175b9c0f1b6a831c399e269772661"; isDir := false |} in
  Read Samples.store "t/HEAD" Samples.fs_a = (Ok (Samples.bytes_of "a", fi), Samples.fs_a) /\
  Write Samples.store "t/HEAD" (Samples.bytes_of "b") ([] ++ [WithIfMatch (ETag fi)])
        Samples.fs_a
    = (Ok tt, <[Filepath.Clean (fullPath Samples.store "t/HEAD")
                  := File (Samples.bytes_of "b")]> Samples.fs_a).
Proof.
  intros fi.
  assert (H : Read Samples.store "t/HEAD" Samples.fs_a
              = (Ok (Samples.bytes_of "a", fi), Samples.fs_a))
    by (vm_compute; reflexivity).
  split; [exact H|].
  exact (proj2 (proj2 (Read_then_conditional_Write Samples.store "t/HEAD" Samples.fs_a
                         (Samples.bytes_of "a") fi Samples.fs_a (Samples.bytes_of "b") [] H))).
Defined.

Lemma second_conditional_Write_loses_witness :
  let e := "0cc175b9c0f1b6a831c399e269772661" in
  let fs1 := snd (Write Samples.store "t/HEAD" (Samples.bytes_of "b")
                    ([] ++ [WithIfMatch e]) Samples.fs_a) in
  Write Samples.store "t/HEAD" (Samples.bytes_of "c") ([] ++ [WithIfMatch e]) fs1
    = (Err (ErrorNew ("IfMatch: ETag mismatch (current: "
                        +:+ Hex.EncodeToString (MD5.Sum (Samples.bytes_of "b")) +:+ ")")),
       fs1) /\
  fs1 !! Filepath.Clean (fullPath Samples.store "t/HEAD")
    = Some (File (Samples.bytes_of "b")).
Proof.
  intros e fs1.
  apply (second_conditional_Write_loses Samples.store "t/HEAD" (Samples.bytes_of "b")
           (Samples.bytes_of "c") [] [] e Samples.fs_a fs1).
  - discriminate.
  - vm_compute. reflexivity.
  - intros H. vm_compute in H. discriminate.
Defined.

Lemma Write_keeps_other_entries_witness :
  let w := Write Samples.store "t/x" (Samples.bytes_of "b") [] Samples.fs_a in
  snd w !! "icebase_tables/t/HEAD" = Some (File (Samples.bytes_of "a")).
Proof.
  intros w.
  refine (proj1 (Write_keeps_other_entries Samples.store "t/x" (Samples.bytes_of "b") []
                   Samples.fs_a (fst w) (snd w) _)
                "icebase_tables/t/HEAD" (File (Samples.bytes_of "a")) _ _).
  - exact (surjective_pairing w).
  - vm_compute. discriminate.
  - vm_compute. reflexivity.
Defined.

Lemma Delete_removes_witness :
  let fs1 := snd (Delete Samples.store "t/HEAD" Samples.fs_a) in
  (exists e, Stat Samples.store "t/HEAD" fs1 = (Err e, fs1) /\ IsNotExist e = true) /\
  Delete Samples.store "t/HEAD" fs1 = (Ok tt, fs1).
Proof.
  intros fs1.
  refine (proj2 (Delete_removes Samples.store "t/HEAD" Samples.fs_a fs1 _)).
  vm_compute. reflexivity.
Defined.

End StorageMoreFacts.

(** ** More on the per-table log *)

Module LogMoreFacts.
Import Log LogFacts LogPathFacts.

#[local] Existing Instances by_timestamp_trans by_timestamp_total.


(** In a sorted arrangement of rows of which one is later than all the
    others, that one is the last. *)
Lemma sorted_latest_last (rows stored : list LogDB.SchemaRow) (x : LogDB.SchemaRow) :
  StronglySorted LogDB.by_timestamp rows ->
  rows ≡ₚ (stored ++ [x])%list ->
  (forall r, r ∈ stored -> LogDB.timestamp r < LogDB.timestamp x) ->
  exists before, rows = (before ++ [x])%list /\ before ≡ₚ stored /\
                 StronglySorted LogDB.by_timestamp before.
Proof.
  intros Hs Hp Hlt.
  assert (Hx : x ∈ rows) by (rewrite Hp; set_solver).
  apply list_elem_of_split in Hx as (l1 & l2 & ->).
  assert (Hp' : (l1 ++ l2)%list ≡ₚ stored).
  { apply (Permutation_cons_inv (a := x)).
    rewrite (Permutation_middle l1 l2 x), Hp. apply Permutation_app_comm. }
  pose proof (StronglySorted_app_1_l _ _ _ Hs) as Hs1.
  pose proof (StronglySorted_app_1_r _ _ _ Hs) as Hs2.
  apply StronglySorted_inv in Hs2 as [_ Hge].
  destruct l2 as [|y l2].
  - exists l1. rewrite app_nil_r in Hp'. done.
  - exfalso. apply Forall_cons in Hge as [Hy _]. unfold LogDB.by_timestamp in Hy.
    assert (y ∈ stored) by (rewrite <- Hp'; set_solver).
    specialize (Hlt y ltac:(done)). lia.
Qed.

Section WithEngine.
Variable E : Engine.


(** [getDB] opens the connection once: called again on the log it
    returned, it returns the same connection and leaves the files, the
    databases and the transaction untouched. *)
Theorem getDB_reuses_connection l w h l' w' :
  getDB E l w = (Ok (h, l'), w') ->
  forall w2, getDB E l' w2 = (Ok (h, l'), w2).
Proof.
  intros H w2. apply getDB_spec in H as (_ & _ & _ & Hdb & _).
  unfold getDB. by rewrite Hdb.
Qed.

Lemma replay_prefix qs w r w' :
  replay E qs w = (r, w') ->
  exists executed, executed `prefix_of` qs /\
    session w' = (session w ++ executed)%list /\
    (r = Ok tt -> executed = qs).
Proof.
  revert w. induction qs as [|q qs IH]; intros w; simpl.
  - unfold ret. intros [= <- <-]. exists []. by rewrite app_nil_r.
  - unfold bind, wrap, txExec. intros H.
    destruct (call E ScanSchemaLog w) as [[[]|e|m] w1] eqn:H1;
      apply call_state in H1; subst w1.
    2,3: injection H as <- <-; exists []; rewrite app_nil_r;
         split; [apply prefix_nil|done].
    destruct (exec_error E (session w) q).
    { injection H as <- <-. exists []. rewrite app_nil_r.
      split; [apply prefix_nil|done]. }
    apply IH in H as (ex & Hp & Hs & Hr). exists (q :: ex).
    split; [by apply prefix_cons|]. simpl in Hs. rewrite Hs, <- app_assoc.
    split; [done|]. intros Hok. by rewrite (Hr Hok).
Qed.

Lemma RecreateSchema_spec l w r w' :
  RecreateSchema E l w = (r, w') ->
  (forall k, database k w' = database k w) /\
  exists executed,
    executed `prefix_of` LogDB.select_raw_queries (database (handle l) w) /\
    session w' = (session w ++ executed)%list /\
    (is_Ok r = true -> executed = LogDB.select_raw_queries (database (handle l) w)).
Proof.
  unfold RecreateSchema, bind, wrap, get, ret. intros H.
  destruct (getDB E l w) as [r1 w1] eqn:Hg.
  apply getDB_spec in Hg as (Hs & Hd & Hr1).
  destruct r1 as [[h l1]|e|m].
  2,3: injection H as <- <-; split; [done|]; exists []; rewrite Hs, app_nil_r;
       split; [apply prefix_nil|done].
  destruct Hr1 as (-> & _ & _).
  destruct (call E QuerySchemaLog w1) as [[[]|e|m] w2] eqn:H1;
    apply call_state in H1; subst w2.
  2,3: injection H as <- <-; split; [done|]; exists []; rewrite Hs, app_nil_r;
       split; [apply prefix_nil|done].
  destruct (replay E _ w1) as [r3 w3] eqn:Hr.
  pose proof (replay_spec E _ _ _ _ Hr) as (_ & Hdb & _).
  apply replay_prefix in Hr as (ex & Hp & Hse & Hall).
  rewrite Hd in Hp, Hall. rewrite Hs in Hse.
  assert (Hw : w' = w3) by (destruct r3 as [[]| |]; by simplify_eq).
  subst w3. split.
  { intros k. unfold database. rewrite Hdb. apply Hd. }
  exists ex. split; [done|]. split; [done|].
  intros Hok. apply Hall. destruct r3 as [[]| |]; simplify_eq; done.
Qed.

(** Whatever its outcome, [RecreateSchema] changes no log database,
    and the statements it has executed in the transaction are a prefix
    of the stored definitions in timestamp order: all of them when it
    succeeds. *)
Theorem RecreateSchema_executes_prefix l w r w' :
  RecreateSchema E l w = (r, w') ->
  (forall k, database k w' = database k w) /\
  exists executed,
    executed `prefix_of` LogDB.select_raw_queries (database (handle l) w) /\
    session w' = (session w ++ executed)%list /\
    (is_Ok r = true -> executed = LogDB.select_raw_queries (database (handle l) w)).
Proof. apply RecreateSchema_spec. Qed.

(** A definition that [createTable] logs at a time later than every
    stored one is replayed last: a [RecreateSchema] that then succeeds
    has executed the stored definitions in timestamp order and then the
    new one. *)
Theorem createTable_replayed_last now l raw w l1 w1 l2 w2 :
  createTable E now None l raw w = (Ok l1, w1) ->
  (forall r, r ∈ LogDB.schema_log (database (handle l) w) -> LogDB.timestamp r < now) ->
  RecreateSchema E l1 w1 = (Ok l2, w2) ->
  exists rows,
    rows ≡ₚ LogDB.schema_log (database (handle l) w) /\
    StronglySorted LogDB.by_timestamp rows /\
    session w2 = (session w ++ map LogDB.raw_query rows ++ [raw])%list.
Proof.
  intros Hc Hlt Hr.
  unfold createTable, bind, wrap, get, ret, fail, set_database in Hc.
  destruct (getDB E l w) as [[[h l0]|e|m] w0] eqn:Hg; try discriminate.
  pose proof (getDB_spec E _ _ _ _ Hg) as (Hs0 & Hd0 & -> & Hdb & _).
  rewrite Hd0 in Hc.
  destruct (has_timestamp now (database (handle l) w)); [discriminate|].
  injection Hc as <- <-.
  apply RecreateSchema_spec in Hr as (_ & ex & _ & Hse & Hall).
  specialize (Hall eq_refl). subst ex.
  assert (Hh : handle l0 = handle l) by (unfold handle at 1; by rewrite Hdb).
  rewrite Hh, database_set in Hse. case_decide; [|done].
  cbn [session with_databases] in Hse. rewrite Hs0 in Hse.
  unfold LogDB.select_raw_queries, add_schema_row in Hse. cbn in Hse.
  set (x := {| LogDB.timestamp := now; LogDB.raw_query := raw |}) in *.
  destruct (sorted_latest_last
              (merge_sort LogDB.by_timestamp
                 (LogDB.schema_log (database (handle l) w) ++ [x]))
              (LogDB.schema_log (database (handle l) w)) x)
    as (before & Heq & Hp & Hsorted).
  - apply (StronglySorted_merge_sort _).
  - apply merge_sort_Permutation.
  - exact Hlt.
  - exists before. split; [done|]. split; [done|].
    rewrite Hse, Heq, map_app. done.
Qed.

End WithEngine.


Lemma getDB_reuses_connection_witness :
  let r := getDB Samples.E0 (NewLog "t") Samples.w0 in
  let l' := {| db := Some "storage/t/log/log.db"; tableName := "t" |} in
  r = (Ok ("storage/t/log/log.db", l'), snd r) /\
  getDB Samples.E0 l' (snd r) = (Ok ("storage/t/log/log.db", l'), snd r).
Proof.
  intros r l'.
  assert (H : r = (Ok ("storage/t/log/log.db", l'), snd r)) by (vm_compute; reflexivity).
  split; [exact H|].
  exact (getDB_reuses_connection Samples.E0 (NewLog "t") Samples.w0
           "storage/t/log/log.db" l' (snd r) H (snd r)).
Defined.

Lemma RecreateSchema_executes_prefix_witness :
  let r := RecreateSchema Samples.Et2 (NewLog "t") Samples.w1 in
  is_Ok (fst r) = false /\
  session (snd r) = ["CREATE TABLE t (id BIGINT)"] /\
  exists executed,
    executed `prefix_of` ["CREATE TABLE t (id BIGINT)"; "CREATE TABLE t2 (name VARCHAR)"] /\
    session (snd r) = (session Samples.w1 ++ executed)%list.
Proof.
  intros r. split; [vm_compute; reflexivity|]. split; [vm_compute; reflexivity|].
  destruct (RecreateSchema_executes_prefix Samples.Et2 (NewLog "t") Samples.w1
              (fst r) (snd r) (surjective_pairing r)) as (_ & ex & Hp & Hs & _).
  exists ex. split; [exact Hp|exact Hs].
Defined.

Lemma createTable_replayed_last_witness :
  let c := createTable Samples.E0 7 None (NewLog "t") "CREATE TABLE t3 (x INT)" Samples.w1 in
  let l1 := {| db := Some "storage/t/log/log.db"; tableName := "t" |} in
  let r := RecreateSchema Samples.E0 l1 (snd c) in
  c = (Ok l1, snd c) /\
  exists rows,
    rows ≡ₚ LogDB.schema_log (database "storage/t/log/log.db" Samples.w1) /\
    session (snd r) = (map LogDB.raw_query rows ++ ["CREATE TABLE t3 (x INT)"])%list.
Proof.
  intros c l1 r.
  assert (Hc : c = (Ok l1, snd c)) by (vm_compute; reflexivity).
  assert (Hr : r = (Ok l1, snd r)) by (vm_compute; reflexivity).
  split; [exact Hc|].
  destruct (createTable_replayed_last Samples.E0 7 (NewLog "t") "CREATE TABLE t3 (x INT)"
              Samples.w1 l1 (snd c) l1 (snd r) Hc) as (rows & Hp & _ & Hs).
  - intros row Hin. vm_compute in Hin.
    apply elem_of_cons in Hin as [-> | Hin]; [reflexivity|].
    apply elem_of_cons in Hin as [-> | Hin]; [reflexivity|].
    inversion Hin.
  - exact Hr.
  - exists rows. split; [exact Hp|exact Hs].
Defined.

End LogMoreFacts.

(** ** More on the dispatcher and the HTTP handler *)

Module DispatcherMoreFacts.
Import GoStrings IceBase.

Lemma serializeRow_length meta vals row :
  serializeRow meta vals = Ok row -> length row = length vals.
Proof.
  revert meta row. induction vals as [|v vals IH]; intros meta row;
    destruct meta as [|m meta]; simpl; try discriminate.
  - intros ?; by simplify_eq.
  - intros ?; by simplify_eq.
  - destruct (serializeCell (Type_ m) v); try discriminate.
    destruct (serializeRow meta vals) as [cs| |] eqn:Hr; try discriminate.
    intros ?; simplify_eq. simpl. by rewrite (IH _ _ Hr).
Qed.

Lemma populateMeta_length columns columnTypes meta :
  populateMeta columns columnTypes = Ok meta -> length meta = length columns.
Proof.
  revert columnTypes meta. induction columns as [|c cs IH]; intros tys meta;
    destruct tys as [|ty tys]; simpl; try discriminate.
  - intros ?; by simplify_eq.
  - intros ?; by simplify_eq.
  - destruct (populateMeta cs tys) as [ms| |] eqn:Hp; try discriminate.
    intros ?; simplify_eq. simpl. by rewrite (IH _ _ Hp).
Qed.

Lemma Scan_length n row vals : Scan n row = Ok vals -> length vals = n.
Proof.
  unfold Scan. destruct row as [vs| |]; try discriminate.
  destruct (length vs =? n)%nat eqn:Hn; [|discriminate].
  intros ?; simplify_eq. by apply Nat.eqb_eq.
Qed.

Lemma scanRows_shape meta n rs acc data :
  scanRows meta n rs acc = Ok data ->
  Forall (fun row => length row = n) (elems acc) ->
  Forall (fun row => length row = n) (elems data) /\
  len data = len acc + Z.of_nat (length rs).
Proof.
  revert acc. induction rs as [|r rs IH]; intros acc; simpl.
  - intros ? Hf; simplify_eq. split; [done|lia].
  - destruct (Scan n r) as [vals| |] eqn:Hs; try discriminate.
    destruct (serializeRow meta vals) as [row| |] eqn:Hr; try discriminate.
    intros H Hf. apply IH in H as [H1 H2].
    + split; [done|]. rewrite H2. destruct acc as [a|]; simpl.
      * rewrite length_app. simpl. lia.
      * lia.
    + apply serializeRow_length in Hr. apply Scan_length in Hs.
      destruct acc as [a|]; simpl in *.
      * apply Forall_app. split; [done|]. apply Forall_singleton. congruence.
      * apply Forall_singleton. congruence.
Qed.

Section WithBackend.
Context {St L : Type}.
Variable B : Backend St L.

(** [logByName] creates the log of a table once, with the storage
    directory of the engine, and returns the same log from then on; the
    logs of the other tables and the rest of the engine are untouched. *)
Theorem logByName_creates_once ib t :
  let r := logByName B ib t in
  logByName B (snd r) t = r /\
  logs (snd r) !! t = Some (fst r) /\
  (forall t', t' <> t -> logs (snd r) !! t' = logs ib !! t') /\
  (logs ib !! t = None -> fst r = NewLog B (ib_storageDir ib) t) /\
  (forall log, logs ib !! t = Some log -> r = (log, ib)) /\
  dataDB (snd r) = dataDB ib /\ options (snd r) = options ib /\
  ib_storageDir (snd r) = ib_storageDir ib /\ authToken (snd r) = authToken ib.
Proof.
  unfold logByName. destruct (logs ib !! t) as [log|] eqn:Hl; cbn.
  - rewrite Hl. repeat split; try done. by intros log' [= <-].
  - rewrite lookup_insert_eq. repeat split; try done.
    intros t' Hne. by rewrite lookup_insert_ne.
Qed.

(** [DataDB] opens the in-memory database once: after a call that
    returned, another call changes nothing, and the engine differs from
    the one before only in holding the database. *)
Theorem DataDB_initialises_once s s1 :
  DataDB B s = (Ok tt, s1) ->
  DataDB B s1 = (Ok tt, s1) /\
  dataDB (fst s1) = true /\ logs (fst s1) = logs (fst s) /\
  options (fst s1) = options (fst s) /\ authToken (fst s1) = authToken (fst s) /\
  (dataDB (fst s) = true -> s1 = s).
Proof.
  unfold DataDB. destruct (dataDB (fst s)) eqn:Hd.
  - intros [= <-]. rewrite Hd. done.
  - destruct (InitializeDuckDB B (snd s)) as [[[]|e|m] st]; try discriminate.
    intros [= <-]. cbn. done.
Qed.

(** The response of a query that succeeded is well formed: [rows] is
    the number of rows of [data], every row has one cell per column of
    [meta], and when the engine answered with a result set [rows] is the
    number of rows it delivered. *)
Theorem ExecuteQuery_response_shape query s resp s1 :
  ExecuteQuery B query s = (Ok resp, s1) ->
  Rows resp = Z.of_nat (length (elems (Data resp))) /\
  (exists meta, Meta resp = Some meta /\
     Forall (fun row => length row = length meta) (elems (Data resp))) /\
  (forall rows, fst (Query B query s) = Ok rows ->
     Rows resp = Z.of_nat (length (Scanned rows))).
Proof.
  unfold ExecuteQuery. destruct (Query B query s) as [res s0]. cbn [fst].
  destruct res as [rows|err|m]; [| |discriminate].
  - unfold readRows, wrapped.
    destruct (Columns rows) as [cols| |]; try discriminate.
    destruct (ColumnTypes rows) as [tys| |]; try discriminate.
    destruct (populateMeta cols tys) as [meta| |] eqn:Hm; try discriminate.
    destruct (scanRows meta (length cols) (Scanned rows) None) as [data| |] eqn:Hs;
      try discriminate.
    intros [= <- <-]. cbn.
    apply scanRows_shape in Hs as [Hf Hn]; [|by constructor].
    apply populateMeta_length in Hm.
    split; [by destruct data|]. split; [exists meta; split; [done|]; by rewrite Hm|].
    intros rows' [= <-]. rewrite Hn. cbn. lia.
  - destruct (negb _); [discriminate|]. intros [= <- <-]. cbn.
    split; [done|]. split; [|discriminate]. exists []. split; [done|constructor].
Qed.

Lemma header_WriteHeader w code : Http.header (Http.WriteHeader code w) = Http.header w.
Proof. unfold Http.WriteHeader. by destruct (Http.status w). Qed.

Lemma header_Write w c : Http.header (Http.Write c w) = Http.header w.
Proof. unfold Http.Write. cbn [Http.header]. apply header_WriteHeader. Qed.

Lemma header_Error_ w msg code k :
  k <> "Content-Length" -> k <> "Content-Type" -> k <> "X-Content-Type-Options" ->
  Http.header (Http.Error_ w msg code) !! k = Http.header w !! k.
Proof.
  intros H1 H2 H3. unfold Http.Error_. cbv zeta.
  rewrite header_Write, header_WriteHeader.
  unfold Http.SetHeader, Http.DelHeader. cbn [Http.header].
  rewrite !lookup_insert_ne, lookup_delete_ne by done. done.
Qed.

Lemma Error_sent w msg code :
  Http.status w = None ->
  Http.status (Http.Error_ w msg code) = Some code /\
  Http.body (Http.Error_ w msg code)
    = (Http.body w ++ [Http.Text (msg +:+ String "010"%char "")])%list.
Proof.
  intros Hw. unfold Http.Error_, Http.Write, Http.WriteHeader, Http.SetHeader,
    Http.DelHeader. cbn [Http.header Http.status Http.body].
  rewrite Hw. cbn [Http.header Http.status Http.body]. done.
Qed.

Lemma Write_sent w c :
  Http.status w = None ->
  Http.status (Http.Write c w) = Some 200 /\
  Http.body (Http.Write c w) = (Http.body w ++ [c])%list.
Proof.
  intros Hw. unfold Http.Write, Http.WriteHeader.
  cbn [Http.header Http.status Http.body]. rewrite Hw. done.
Qed.

(** Every response of [RequestHandler] carries the three CORS
    headers, whatever the request and however it is answered. *)
Theorem RequestHandler_CORS r w s w' s' :
  Http.RequestHandler B r w s = (Ok w', s') ->
  Http.header w' !! "Access-Control-Allow-Origin" = Some "*" /\
  Http.header w' !! "Access-Control-Allow-Methods" = Some "POST, GET, OPTIONS" /\
  Http.header w' !! "Access-Control-Allow-Headers" = Some "Content-Type".
Proof.
  unfold Http.RequestHandler. cbv zeta.
  set (w3 := Http.SetHeader "Access-Control-Allow-Headers" "Content-Type"
               (Http.SetHeader "Access-Control-Allow-Methods" "POST, GET, OPTIONS"
                  (Http.SetHeader "Access-Control-Allow-Origin" "*" w))).
  assert (H3 : Http.header w3 !! "Access-Control-Allow-Origin" = Some "*" /\
               Http.header w3 !! "Access-Control-Allow-Methods" = Some "POST, GET, OPTIONS" /\
               Http.header w3 !! "Access-Control-Allow-Headers" = Some "Content-Type").
  { unfold w3, Http.SetHeader. cbn [Http.header].
    split; [|split].
    - by rewrite !lookup_insert_ne, lookup_insert_eq by done.
    - by rewrite lookup_insert_ne, lookup_insert_eq by done.
    - by rewrite lookup_insert_eq. }
  assert (He : forall msg code,
             Http.header (Http.Error_ w3 msg code) !! "Access-Control-Allow-Origin" = Some "*" /\
             Http.header (Http.Error_ w3 msg code) !! "Access-Control-Allow-Methods"
               = Some "POST, GET, OPTIONS" /\
             Http.header (Http.Error_ w3 msg code) !! "Access-Control-Allow-Headers"
               = Some "Content-Type").
  { intros msg code. rewrite !header_Error_ by done. exact H3. }
  clearbody w3. intros H.
  destruct (negb _ && negb _); [injection H as <- <-; apply He|].
  destruct (String.eqb (Http.Method r) Http.MethodOptions).
  { injection H as <- <-. by rewrite header_WriteHeader. }
  destruct (negb _); [injection H as <- <-; apply He|].
  destruct (Http.Body r) as [body|err|m]; [|injection H as <- <-; apply He|discriminate].
  destruct (PostEndpoint B (Http.URLPath r) body s) as [[json|err|m] s2];
    [|injection H as <- <-; apply He|discriminate].
  injection H as <- <-. rewrite header_Write. unfold Http.SetHeader. cbn [Http.header].
  rewrite !lookup_insert_ne by done. exact H3.
Qed.

(** A POST that passes the token check and whose body can be read is
    answered from [PostEndpoint]: 200 with the JSON document and the
    JSON content type when it succeeds, 400 with the text of the error
    when it fails; an endpoint other than [/query] and [/parse] is such
    a failure, and leaves the engine as it was. *)
Theorem RequestHandler_POST ib st r w body :
  (authToken ib = "" \/ Http.Authorization r = "Bearer " +:+ authToken ib) ->
  Http.Method r = "POST" -> Http.Body r = Ok body ->
  Http.status w = None -> Http.body w = [] ->
  (forall json s', PostEndpoint B (Http.URLPath r) body (ib, st) = (Ok json, s') ->
     exists w', Http.RequestHandler B r w (ib, st) = (Ok w', s') /\
                Http.status w' = Some 200 /\ Http.body w' = [Http.JsonText json] /\
                Http.header w' !! "Content-Type" = Some "application/json") /\
  (forall err s', PostEndpoint B (Http.URLPath r) body (ib, st) = (Err err, s') ->
     exists w', Http.RequestHandler B r w (ib, st) = (Ok w', s') /\
                Http.status w' = Some 400 /\
                Http.body w' = [Http.Text (Error err +:+ String "010"%char "")]) /\
  (Http.URLPath r <> "/query" -> Http.URLPath r <> "/parse" ->
     exists w', Http.RequestHandler B r w (ib, st) = (Ok w', (ib, st)) /\
                Http.status w' = Some 400 /\
                Http.body w' = [Http.Text ("unknown endpoint: " +:+ Http.URLPath r
                                             +:+ String "010"%char "")]).
Proof.
  intros Hauth Hm Hbody Hw Hb.
  assert (Ha : negb (authToken ib =? "")%string
               && negb (Http.Authorization r =? "Bearer " +:+ authToken ib)%string = false).
  { destruct Hauth as [-> | ->]; [done|]. rewrite String.eqb_refl.
    by rewrite andb_false_r. }
  set (w3 := Http.SetHeader "Access-Control-Allow-Headers" "Content-Type"
               (Http.SetHeader "Access-Control-Allow-Methods" "POST, GET, OPTIONS"
                  (Http.SetHeader "Access-Control-Allow-Origin" "*" w))).
  assert (Hw3 : Http.status w3 = None /\ Http.body w3 = []) by done.
  destruct Hw3 as [Hw3 Hb3].
  assert (Hrun : Http.RequestHandler B r w (ib, st)
            = match PostEndpoint B (Http.URLPath r) body (ib, st) with
              | (Err err, s') => (Ok (Http.Error_ w3 (Error err) Http.StatusBadRequest), s')
              | (Panic msg, s') => (Panic msg, s')
              | (Ok jsonResponse, s') =>
                  (Ok (Http.Write (Http.JsonText jsonResponse)
                         (Http.SetHeader "Content-Type" "application/json" w3)), s')
              end).
  { unfold Http.RequestHandler. cbn [fst]. rewrite Ha, Hm, Hbody. reflexivity. }
  clearbody w3.
  assert (Hok : forall json s', PostEndpoint B (Http.URLPath r) body (ib, st) = (Ok json, s') ->
     exists w', Http.RequestHandler B r w (ib, st) = (Ok w', s') /\
                Http.status w' = Some 200 /\ Http.body w' = [Http.JsonText json] /\
                Http.header w' !! "Content-Type" = Some "application/json").
  { intros json s' Hp. eexists. rewrite Hrun, Hp. split; [done|].
    destruct (Write_sent (Http.SetHeader "Content-Type" "application/json" w3)
                (Http.JsonText json) Hw3) as [-> ->].
    rewrite header_Write. unfold Http.SetHeader. cbn [Http.header Http.body].
    rewrite Hb3. split; [done|]. split; [done|]. apply lookup_insert_eq. }
  assert (Herr : forall err s', PostEndpoint B (Http.URLPath r) body (ib, st) = (Err err, s') ->
     exists w', Http.RequestHandler B r w (ib, st) = (Ok w', s') /\
                Http.status w' = Some 400 /\
                Http.body w' = [Http.Text (Error err +:+ String "010"%char "")]).
  { intros err s' Hp. eexists. rewrite Hrun, Hp. split; [done|].
    destruct (Error_sent w3 (Error err) Http.StatusBadRequest Hw3) as [-> ->].
    rewrite Hb3. done. }
  split; [exact Hok|]. split; [exact Herr|].
  intros Hq Hp. apply String.eqb_neq in Hq, Hp.
  apply (Herr (ErrorNew ("unknown endpoint: " +:+ Http.URLPath r))).
  unfold PostEndpoint. by rewrite Hq, Hp.
Qed.

End WithBackend.

Lemma DataDB_initialises_once_witness :
  let s1 := snd (DataDB Samples.B0 (Samples.ib0, [])) in
  DataDB Samples.B0 s1 = (Ok tt, s1) /\ dataDB (fst s1) = true.
Proof.
  intros s1.
  destruct (DataDB_initialises_once Samples.B0 (Samples.ib0, []) s1 eq_refl)
    as (H1 & H2 & _).
  split; [exact H1|exact H2].
Defined.

Lemma ExecuteQuery_response_shape_witness :
  let r := ExecuteQuery Samples.B0 "SELECT 1" [] in
  exists resp, r = (Ok resp, snd r) /\ Rows resp = 2 /\
    exists meta, Meta resp = Some meta /\
      Forall (fun row => length row = length meta) (elems (Data resp)).
Proof.
  intros r.
  assert (H : exists resp, r = (Ok resp, snd r)) by (eexists; vm_compute; reflexivity).
  destruct H as [resp H]. exists resp. split; [exact H|].
  destruct (ExecuteQuery_response_shape Samples.B0 "SELECT 1" [] resp (snd r) H)
    as (_ & Hm & Hn).
  split; [|exact Hm].
  exact (Hn _ eq_refl).
Defined.

Lemma RequestHandler_CORS_witness :
  let r := Http.RequestHandler Samples.B0 Samples.options_request Http.fresh
             (Samples.ib_secret, []) in
  exists w', r = (Ok w', snd r) /\ Http.status w' = Some 401 /\
             Http.header w' !! "Access-Control-Allow-Origin" = Some "*".
Proof.
  intros r.
  assert (H : exists w', r = (Ok w', snd r) /\ Http.status w' = Some 401)
    by (eexists; split; reflexivity).
  destruct H as (w' & H & Hs). exists w'. split; [exact H|]. split; [exact Hs|].
  exact (proj1 (RequestHandler_CORS Samples.B0 Samples.options_request Http.fresh
                  (Samples.ib_secret, []) w' (snd r) H)).
Defined.

Lemma RequestHandler_POST_witness :
  let r := {| Http.Method := "POST"; Http.URLPath := "/tables";
              Http.Authorization := "Bearer secret"; Http.Body := Ok "SELECT 1" |} in
  exists w', Http.RequestHandler Samples.B0 r Http.fresh (Samples.ib_secret, [])
               = (Ok w', (Samples.ib_secret, [])) /\
             Http.status w' = Some 400 /\
             Http.body w' = [Http.Text ("unknown endpoint: " +:+ Http.URLPath r
                                          +:+ String "010"%char "")].
Proof.
  intros r.
  exact (proj2 (proj2 (RequestHandler_POST Samples.B0 Samples.ib_secret [] r Http.fresh
                         "SELECT 1" (or_intror eq_refl) eq_refl eq_refl eq_refl eq_refl))
               ltac:(discriminate) ltac:(discriminate)).
Defined.

End DispatcherMoreFacts.
